(** * Web server log analyzer: parser and aggregator of [log_analyzer.py]

    A shallow embedding of class [LogAnalyzer]: the three compiled patterns,
    [parse_line], the loop body of [process_log_file], [_update_statistics],
    [identify_suspicious_ips] and [generate_statistics].

    Text is modelled over code points 0..255 ([ascii]); the classes [\d],
    [\w], [\s] and [str.strip] follow CPython's Unicode tables on that range.
    Python [int] is [Z].  Python [dict], [defaultdict] and [Counter] keep
    insertion order, which the report depends on, so they are association
    lists with the keys in insertion order. *)

From Stdlib Require Import ZArith List Bool Ascii String Lia.
From Stdlib Require Import Sorting.Sorted Sorting.Permutation QArith.
Import ListNotations.

Open Scope string_scope.
Open Scope Z_scope.

(** ** Text *)

Definition code (c : ascii) : N := N_of_ascii c.

Definition between (lo hi n : N) : bool := ((lo <=? n) && (n <=? hi))%N.

(** [\d] : decimal digits. *)
Definition is_digit (c : ascii) : bool := between 48 57 (code c).

(** [\s] and [str.isspace]. *)
Definition is_space (c : ascii) : bool :=
  let n := code c in
  between 9 13 n || between 28 32 n || (n =? 133)%N || (n =? 160)%N.

Definition is_alnum (c : ascii) : bool :=
  let n := code c in
  between 48 57 n || between 65 90 n || between 97 122 n
  || (n =? 170)%N || between 178 179 n || (n =? 181)%N
  || between 185 186 n || between 188 190 n
  || between 192 214 n || between 216 246 n || between 248 255 n.

(** [\w] : alphanumerics and the underscore. *)
Definition is_word (c : ascii) : bool := is_alnum c || (code c =? 95)%N.

(** The double quote character. *)
Definition dquote : ascii := ascii_of_nat 34.

(** [s[:n]] *)
Fixpoint take (n : nat) (s : string) : string :=
  match n, s with
  | S n', String c s' => String c (take n' s')
  | _, _ => EmptyString
  end.

(** [s[n:]] *)
Fixpoint drop (n : nat) (s : string) : string :=
  match n, s with
  | S n', String _ s' => drop n' s'
  | _, _ => s
  end.

Fixpoint all_chars (f : ascii -> bool) (s : string) : bool :=
  match s with
  | EmptyString => true
  | String c s' => f c && all_chars f s'
  end.

Definition is_empty (s : string) : bool :=
  match s with EmptyString => true | _ => false end.

Fixpoint lstrip (s : string) : string :=
  match s with
  | EmptyString => EmptyString
  | String c s' => if is_space c then lstrip s' else s
  end.

Fixpoint rstrip (s : string) : string :=
  match s with
  | EmptyString => EmptyString
  | String c s' =>
      match rstrip s' with
      | EmptyString => if is_space c then EmptyString else String c EmptyString
      | r => String c r
      end
  end.

(** [str.strip()] *)
Definition strip (s : string) : string := rstrip (lstrip s).

(** [str.startswith] for a one-character prefix. *)
Definition startswith (s : string) (c : ascii) : bool :=
  match s with
  | String c' _ => Ascii.eqb c' c
  | EmptyString => false
  end.

(** ** Insertion-ordered dictionaries *)

Definition dict (V : Type) : Type := list (string * V).

Fixpoint dict_get {V} (d : dict V) (k : string) : option V :=
  match d with
  | [] => None
  | (k', v) :: d' => if String.eqb k' k then Some v else dict_get d' k
  end.

(** [d.get(k, default)] *)
Definition dict_get_default {V} (d : dict V) (k : string) (default : V) : V :=
  match dict_get d k with Some v => v | None => default end.

Definition dict_mem {V} (d : dict V) (k : string) : bool :=
  match dict_get d k with Some _ => true | None => false end.

(** [d[k] += n] on a [defaultdict(int)] or a [Counter]: an existing key is
    updated in place, a new key is appended. *)
Fixpoint dict_add (d : dict Z) (k : string) (n : Z) : dict Z :=
  match d with
  | [] => [(k, 0 + n)]
  | (k', v) :: d' =>
      if String.eqb k' k then (k', v + n) :: d' else (k', v) :: dict_add d' k n
  end.

(** [d[k] = v] *)
Fixpoint dict_set {V} (d : dict V) (k : string) (v : V) : dict V :=
  match d with
  | [] => [(k, v)]
  | (k', v') :: d' =>
      if String.eqb k' k then (k', v) :: d' else (k', v') :: dict_set d' k v
  end.

(** [dict(pairs)] *)
Definition dict_of_pairs {V} (l : list (string * V)) : dict V :=
  fold_left (fun d kv => dict_set d (fst kv) (snd kv)) l [].

Definition keys {V} (d : dict V) : list string := map fst d.
Definition values {V} (d : dict V) : list V := map snd d.

(** [sum(...)] over integers *)
Definition sum (l : list Z) : Z := fold_left Z.add l 0.

(** ** Regular expressions

    The fragment the three patterns use: literal characters and greedy
    [+] repetitions of a character set, the latter optionally inside a
    named group. *)

Inductive atom : Type :=
| ADigit                (* \d *)
| AWord                 (* \w *)
| ASpace                (* \s *)
| AChar (c : ascii).

Inductive cset : Type :=
| Pos (l : list atom)   (* [...]  *)
| Neg (l : list atom).  (* [^...] *)

Inductive item : Type :=
| Lit (c : ascii)
| Plus (name : option string) (cs : cset).

Definition regex : Type := list item.

Definition atom_mem (a : atom) (c : ascii) : bool :=
  match a with
  | ADigit => is_digit c
  | AWord => is_word c
  | ASpace => is_space c
  | AChar c' => Ascii.eqb c' c
  end.

Definition cset_mem (cs : cset) (c : ascii) : bool :=
  match cs with
  | Pos l => existsb (fun a => atom_mem a c) l
  | Neg l => negb (existsb (fun a => atom_mem a c) l)
  end.

(** Length of the longest prefix of [s] inside the set. *)
Fixpoint span (cs : cset) (s : string) : nat :=
  match s with
  | EmptyString => O
  | String c s' => if cset_mem cs c then S (span cs s') else O
  end.

(** The result of [match.groupdict()]: group names in pattern order. *)
Definition groupdict : Type := dict string.

Definition bind_group (name : option string) (v : string) (g : groupdict)
  : groupdict :=
  match name with
  | Some n => (n, v) :: g
  | None => g
  end.

(** Backtracking over the number of repetitions, longest first, at least
    one. *)
Fixpoint backtrack {R} (f : nat -> option R) (k : nat) : option R :=
  match k with
  | O => None
  | S k' => match f k with Some r => Some r | None => backtrack f k' end
  end.

(** [pattern.match(s)]: anchored at the start of [s] only.  The result is the
    group dictionary and the text after the end of the match. *)
Fixpoint re_match (p : regex) (s : string) {struct p}
  : option (groupdict * string) :=
  match p with
  | [] => Some ([], s)
  | Lit c :: p' =>
      match s with
      | String c' s' => if Ascii.eqb c c' then re_match p' s' else None
      | EmptyString => None
      end
  | Plus name cs :: p' =>
      backtrack
        (fun k =>
           match re_match p' (drop k s) with
           | Some (g, rest) => Some (bind_group name (take k s) g, rest)
           | None => None
           end)
        (span cs s)
  end.

Fixpoint lit (s : string) : regex :=
  match s with
  | EmptyString => []
  | String c s' => Lit c :: lit s'
  end.

Definition group (name : string) (cs : cset) : regex := [Plus (Some name) cs].

(** The part the three patterns share, from the bracketed timestamp on:
    the timestamp group, the quoted request (method group, endpoint group,
    protocol version outside any group), the status group and the bytes
    group. *)
Definition request_tail : regex :=
  (lit "[" ++ group "timestamp" (Neg [AChar "]"]) ++ lit "] "
  ++ [Lit dquote] ++ group "method" (Pos [AWord]) ++ lit " "
  ++ group "endpoint" (Neg [ASpace]) ++ lit " HTTP/"
  ++ [Plus None (Pos [ADigit; AChar "."])] ++ [Lit dquote] ++ lit " "
  ++ group "status" (Pos [ADigit]) ++ lit " "
  ++ group "bytes" (Pos [ADigit; AChar "-"]))%list.

Definition APACHE_COMBINED : regex :=
  (group "ip" (Pos [ADigit; AChar "."]) ++ lit " - - " ++ request_tail)%list.

Definition NGINX_COMBINED : regex :=
  (group "ip" (Pos [ADigit; AChar "."]) ++ lit " - - " ++ request_tail)%list.

Definition EXTENDED_FORMAT : regex :=
  (group "ip" (Pos [ADigit; AChar "."]) ++ lit " - "
   ++ group "user" (Pos [AWord; AChar "-"]) ++ lit " " ++ request_tail)%list.

Definition patterns : list regex :=
  [APACHE_COMBINED; NGINX_COMBINED; EXTENDED_FORMAT].

(** The [for pattern in [...]] loop of [parse_line]. *)
Fixpoint first_match (ps : list regex) (line : string) : option groupdict :=
  match ps with
  | [] => None
  | p :: ps' =>
      match re_match p line with
      | Some (g, _) => Some g
      | None => first_match ps' line
      end
  end.

Definition parse_line (line : string) : option groupdict :=
  let line := strip line in
  if is_empty line then None else first_match patterns line.

(** [s] between double quotes. *)
Definition quoted (s : string) : string :=
  String dquote (s ++ String dquote "").

Definition sample_line : string :=
  "10.0.0.1 - - [10/Oct/2023:13:55:36 -0700] "
  ++ quoted "GET /index.html HTTP/1.1" ++ " 404 1234".


(** ** Sorting

    [list.sort(key=..., reverse=True)] and [sorted(..., reverse=True)] are
    stable: descending by key, equal keys in their original order. *)

Fixpoint insert_desc {A} (key : A -> Z) (x : A) (l : list A) : list A :=
  match l with
  | [] => [x]
  | y :: l' =>
      if key x <? key y then y :: insert_desc key x l' else x :: y :: l'
  end.

Fixpoint sort_desc {A} (key : A -> Z) (l : list A) : list A :=
  match l with
  | [] => []
  | x :: l' => insert_desc key x (sort_desc key l')
  end.

(** [Counter.most_common()] *)
Definition most_common (d : dict Z) : list (string * Z) := sort_desc snd d.

(** [Counter.most_common(n)] *)
Definition most_common_n (n : nat) (d : dict Z) : list (string * Z) :=
  firstn n (sort_desc snd d).

(** [enumerate(lines, start)] *)
Fixpoint enumerate {A} (start : Z) (l : list A) : list (Z * A) :=
  match l with
  | [] => []
  | x :: l' => (start, x) :: enumerate (start + 1) l'
  end.

(** ** The language of a pattern

    [matches p u g]: the whole of [u] has the shape of [p], with the groups
    bound as in [g].  This is the usual reading of the fragment, against
    which the backtracking matcher is compared. *)

Inductive matches : regex -> string -> groupdict -> Prop :=
| matches_nil : matches [] "" []
| matches_lit c p u g :
    matches p u g -> matches (Lit c :: p) (String c u) g
| matches_plus name cs p w u g :
    w <> "" -> all_chars (cset_mem cs) w = true -> matches p u g ->
    matches (Plus name cs :: p) (w ++ u) (bind_group name w g).

(** A pattern accepts a line when [pattern.match] returns a match object. *)
Definition accepts (p : regex) (s : string) : Prop :=
  exists g rest, re_match p s = Some (g, rest).

(** The named groups of a pattern with their character sets, in order. *)
Fixpoint named (p : regex) : list (string * cset) :=
  match p with
  | [] => []
  | Plus (Some n) cs :: p' => (n, cs) :: named p'
  | _ :: p' => named p'
  end.

(** A non-empty run of characters that satisfy [f]. *)
Definition run_of (f : ascii -> bool) (v : string) : Prop :=
  v <> "" /\ all_chars f v = true.

Definition group_ok (n : string * cset) (kv : string * string) : Prop :=
  fst kv = fst n /\ run_of (cset_mem (snd n)) (snd kv).

Definition digit_or (x : ascii) (c : ascii) : bool :=
  is_digit c || Ascii.eqb x c.

Definition not_space (c : ascii) : bool := negb (is_space c).

Fixpoint last_char (s : string) : option ascii :=
  match s with
  | EmptyString => None
  | String c EmptyString => Some c
  | String _ s' => last_char s'
  end.

(** The byte count shape of the specification: digits only, or a single
    dash. *)
Definition digits_or_dash (b : string) : bool :=
  (negb (is_empty b) && all_chars is_digit b) || String.eqb b "-".

Definition six_fields : list string :=
  ["ip"; "timestamp"; "method"; "endpoint"; "status"; "bytes"].

Definition seven_fields : list string :=
  ["ip"; "user"; "timestamp"; "method"; "endpoint"; "status"; "bytes"].

(** Lines used in the examples. *)
Definition trailing_line : string :=
  sample_line ++ " " ++ quoted "-" ++ " " ++ quoted "curl/8.0".

Definition dashes_line : string :=
  "1.2.3.4 - - [t] " ++ quoted "GET / HTTP/1.1" ++ " 200 1-2".

Definition user_line : string :=
  "1.2.3.4 - frank [t] " ++ quoted "GET / HTTP/1.1" ++ " 200 5".

Definition blank_line : string := "   ".

Definition error_line : string :=
  "10.0.0.9 - - [10/Oct/2023:13:55:36 -0700] "
  ++ quoted "GET /admin HTTP/1.1" ++ " 500 0".

Definition ok_line : string :=
  "10.0.0.9 - - [10/Oct/2023:13:55:37 -0700] "
  ++ quoted "GET /index.html HTTP/1.1" ++ " 200 512".

(** Twelve requests of one client, eleven of them errors. *)
Definition burst_lines : list string :=
  (repeat error_line 11 ++ [ok_line])%list.

(** ** Console report helpers

    [_get_status_name]: the table of status names, with [''] for a code
    that is not in it. *)
Definition status_names : dict string :=
  [("200", "OK"); ("201", "Created"); ("204", "No Content");
   ("301", "Moved Permanently"); ("302", "Found"); ("304", "Not Modified");
   ("400", "Bad Request"); ("401", "Unauthorized"); ("403", "Forbidden");
   ("404", "Not Found"); ("405", "Method Not Allowed");
   ("500", "Internal Server Error"); ("502", "Bad Gateway");
   ("503", "Service Unavailable"); ("504", "Gateway Timeout")].

Definition _get_status_name (code : string) : string :=
  dict_get_default status_names code "".

(** The endpoint column of [display_console_report]: an endpoint of more
    than 50 characters is cut to its first 47 followed by three dots. *)
Definition display_endpoint (endpoint : string) : string :=
  if (50 <? String.length endpoint)%nat
  then take 47 endpoint ++ "..."
  else endpoint.

(** A text of whitespace only. *)
Definition is_blank (s : string) : bool := all_chars is_space s.

(** ** Rational numbers as an instance of the numbers of the analyzer *)

Definition Q_div (a b : Z) : Q := Qmake a (Z.to_pos b).
Definition Q_ge (x y : Q) : bool := Qle_bool y x.

(** ** The analyzer *)

Section Analyzer.

(** The numbers of the error rate: Python computes [errors / total] and
    compares it with the threshold in floating point.  The analyzer is
    modelled over any type of numbers with these operations. *)
Variable num : Type.
Variable int_num : Z -> num.          (* an [int] used as a number *)
Variable true_div : Z -> Z -> num.    (* [a / b] on two [int]s *)
Variable num_ge : num -> num -> bool. (* [x >= y] *)
Variable round3 : num -> num.         (* [round(x, 3)] *)

Record LogAnalyzer : Type := mkLogAnalyzer {
  error_threshold : Z;
  error_rate_threshold : num;
  total_requests : Z;
  ip_requests : dict Z;
  ip_errors : dict Z;
  endpoints : dict Z;
  status_codes : dict Z;
  methods : dict Z;
  failed_lines : list (Z * string)
}.

(** [__init__] *)
Definition init (error_threshold : Z) (error_rate_threshold : num)
  : LogAnalyzer :=
  mkLogAnalyzer error_threshold error_rate_threshold 0 [] [] [] [] [] [].

Definition is_error_status (status : string) : bool :=
  startswith status "4" || startswith status "5".

Definition _update_statistics (st : LogAnalyzer) (parsed : groupdict)
  : LogAnalyzer :=
  let ip := dict_get_default parsed "ip" "unknown" in
  let method := dict_get_default parsed "method" "unknown" in
  let endpoint := dict_get_default parsed "endpoint" "unknown" in
  let status := dict_get_default parsed "status" "000" in
  mkLogAnalyzer
    (error_threshold st)
    (error_rate_threshold st)
    (total_requests st + 1)
    (dict_add (ip_requests st) ip 1)
    (if is_error_status status
     then dict_add (ip_errors st) ip 1
     else ip_errors st)
    (dict_add (endpoints st) endpoint 1)
    (dict_add (status_codes st) status 1)
    (dict_add (methods st) method 1)
    (failed_lines st).

(** The [else] branch of the loop body of [process_log_file]. *)
Definition record_failure (st : LogAnalyzer) (line_num : Z) (line : string)
  : LogAnalyzer :=
  if (List.length (failed_lines st) <? 10)%nat
  then mkLogAnalyzer
         (error_threshold st) (error_rate_threshold st) (total_requests st)
         (ip_requests st) (ip_errors st) (endpoints st) (status_codes st)
         (methods st)
         (failed_lines st ++ [(line_num, take 100 (strip line))])%list
  else st.

(** One iteration of the loop of [process_log_file]: [if parsed:] holds for
    a dictionary that is not empty. *)
Definition process_line (st : LogAnalyzer) (line_num : Z) (line : string)
  : LogAnalyzer :=
  match parse_line line with
  | Some (kv :: parsed) => _update_statistics st (kv :: parsed)
  | _ => record_failure st line_num line
  end.

Definition ingest_all (st : LogAnalyzer) (calls : list (Z * string))
  : LogAnalyzer :=
  fold_left (fun st c => process_line st (fst c) (snd c)) calls st.

Definition process_log_file (st : LogAnalyzer) (lines : list string)
  : LogAnalyzer :=
  ingest_all st (enumerate 1 lines).

Definition suspect : Type := string * Z * Z * num.

Definition suspect_errors (x : suspect) : Z := snd (fst x).

Definition error_rate (errors total : Z) : num :=
  if total >? 0 then true_div errors total else int_num 0.

Definition identify_suspicious_ips (st : LogAnalyzer) : list suspect :=
  let suspicious :=
    fold_left
      (fun suspicious item =>
         let ip := fst item in
         let total := snd item in
         let errors := dict_get_default (ip_errors st) ip 0 in
         let rate := error_rate errors total in
         if (errors >=? error_threshold st)
            && num_ge rate (error_rate_threshold st)
         then (suspicious ++ [(ip, total, errors, rate)])%list
         else suspicious)
      (ip_requests st) [] in
  sort_desc suspect_errors suspicious.

Record Summary : Type := mkSummary {
  sum_total_requests : Z;
  unique_ips : Z;
  unique_endpoints : Z;
  unique_status_codes : Z;
  suspicious_ips_count : Z
}.

Record StatusSummary : Type := mkStatusSummary {
  success_2xx : Z;
  redirect_3xx : Z;
  client_error_4xx : Z;
  server_error_5xx : Z
}.

Record Report : Type := mkReport {
  summary : Summary;
  http_methods : dict Z;
  status_breakdown : dict Z;
  status_summary : StatusSummary;
  top_endpoints : list (string * Z);
  top_ips : list (string * Z);
  suspicious_ips : list suspect
}.

Definition len {A} (l : list A) : Z := Z.of_nat (List.length l).

Definition count_prefix (d : dict Z) (c : ascii) : Z :=
  sum (map snd (filter (fun kv => startswith (fst kv) c) d)).

Definition generate_statistics (st : LogAnalyzer) : Report :=
  let suspicious_ips := identify_suspicious_ips st in
  mkReport
    (mkSummary (total_requests st) (len (ip_requests st))
       (len (endpoints st)) (len (status_codes st)) (len suspicious_ips))
    (dict_of_pairs (most_common (methods st)))
    (dict_of_pairs (most_common (status_codes st)))
    (mkStatusSummary
       (count_prefix (status_codes st) "2")
       (count_prefix (status_codes st) "3")
       (count_prefix (status_codes st) "4")
       (count_prefix (status_codes st) "5"))
    (most_common_n 20 (endpoints st))
    (most_common_n 20 (ip_requests st))
    (map (fun x : suspect =>
            match x with
            | (ip, total, errors, rate) => (ip, total, errors, round3 rate)
            end)
       suspicious_ips).

(** The lines of a call sequence that do not parse, as the sample stores
    them. *)
Definition parses (line : string) : bool :=
  match parse_line line with
  | Some (_ :: _) => true
  | _ => false
  end.

Definition failures (calls : list (Z * string)) : list (Z * string) :=
  map (fun c => (fst c, take 100 (strip (snd c))))
    (filter (fun c => negb (parses (snd c))) calls).

(** The clients that pass both thresholds, in the order of
    [ip_requests.items()]. *)
Definition is_suspicious (st : LogAnalyzer) (item : string * Z) : bool :=
  let errors := dict_get_default (ip_errors st) (fst item) 0 in
  (errors >=? error_threshold st)
  && num_ge (true_div errors (snd item)) (error_rate_threshold st).

Definition suspect_of (st : LogAnalyzer) (item : string * Z) : suspect :=
  let errors := dict_get_default (ip_errors st) (fst item) 0 in
  (fst item, snd item, errors, true_div errors (snd item)).

Definition candidates (st : LogAnalyzer) : list suspect :=
  map (suspect_of st) (filter (is_suspicious st) (ip_requests st)).

(** Modelled from the spec: the repository has no operation that merges two
    aggregation states; the specification describes one, which sums
    corresponding counters field by field.  Counters of the second state
    are added to the first in the second's insertion order; the sample of
    unparsable lines, which is not a counter and which the report does not
    read, is concatenated up to its capacity. *)
Definition dict_merge (a b : dict Z) : dict Z :=
  fold_left (fun d kv => dict_add d (fst kv) (snd kv)) b a.

(** Modelled from the spec: the merge of two states, absent from the
    repository; the thresholds are those of the first state. *)
Definition merge_states (a b : LogAnalyzer) : LogAnalyzer :=
  mkLogAnalyzer
    (error_threshold a)
    (error_rate_threshold a)
    (total_requests a + total_requests b)
    (dict_merge (ip_requests a) (ip_requests b))
    (dict_merge (ip_errors a) (ip_errors b))
    (dict_merge (endpoints a) (endpoints b))
    (dict_merge (status_codes a) (status_codes b))
    (dict_merge (methods a) (methods b))
    (firstn 10 (failed_lines a ++ failed_lines b)%list).

(** Modelled from the spec: the sharded run, absent from the repository.
    Each chunk goes into a fresh state through [process_log_file]; the
    states are merged in order. *)
Definition merge_chunks (t : Z) (r : num) (chunks : list (list string))
  : LogAnalyzer :=
  fold_left merge_states
    (map (process_log_file (init t r)) chunks) (init t r).

(** The invariant that relates the two per-client counters. *)
Definition errors_covered (st : LogAnalyzer) : Prop :=
  (forall c n, dict_get (ip_requests st) c = Some n -> 0 < n)
  /\ (forall c e, dict_get (ip_errors st) c = Some e ->
        exists n, dict_get (ip_requests st) c = Some n /\ e <= n).

(** What the report reads of a state. *)
Definition counters (st : LogAnalyzer)
  : Z * num * Z * dict Z * dict Z * dict Z * dict Z * dict Z :=
  (error_threshold st, error_rate_threshold st, total_requests st,
   ip_requests st, ip_errors st, endpoints st, status_codes st, methods st).


(** The operands [(count, total)] of every
    [count / summary['total_requests']] that [display_console_report]
    evaluates, in the order of evaluation: the methods sorted by count, the
    status summary entries with a positive count, the first 10 entries of
    the status breakdown, the first 15 top endpoints and the first 15 top
    clients.  Python raises [ZeroDivisionError] when [total] is zero. *)
Definition display_divisions (stats : Report) : list (Z * Z) :=
  let total := sum_total_requests (summary stats) in
  let divide := fun count : Z => (count, total) in
  (map (fun kv => divide (snd kv)) (sort_desc snd (http_methods stats))
   ++ map divide
        (filter (fun count => count >? 0)
           [success_2xx (status_summary stats);
            redirect_3xx (status_summary stats);
            client_error_4xx (status_summary stats);
            server_error_5xx (status_summary stats)])
   ++ map (fun kv => divide (snd kv)) (firstn 10 (status_breakdown stats))
   ++ map (fun kv => divide (snd kv)) (firstn 15 (top_endpoints stats))
   ++ map (fun kv => divide (snd kv)) (firstn 15 (top_ips stats)))%list.

(** A dictionary as ingestion builds it: distinct keys, positive counts. *)
Definition counter_ok (d : dict Z) : Prop :=
  NoDup (keys d) /\ Forall (fun kv => 0 < snd kv) d.

Definition counters_ok (st : LogAnalyzer) : Prop :=
  counter_ok (ip_requests st) /\ counter_ok (ip_errors st)
  /\ counter_ok (endpoints st) /\ counter_ok (status_codes st)
  /\ counter_ok (methods st).

(** The client of an entry of the suspicious list. *)
Definition suspect_ip (x : suspect) : string := fst (fst (fst x)).

(** ** Text lemmas *)

Lemma append_nil_r (s : string) : s ++ "" = s.
Proof. induction s; simpl; congruence. Qed.

Lemma append_assoc (a b c : string) : (a ++ b) ++ c = a ++ (b ++ c).
Proof. induction a; simpl; congruence. Qed.

Lemma take_drop (k : nat) (s : string) : take k s ++ drop k s = s.
Proof.
  revert s; induction k as [|k IH]; intros [|c s]; simpl; try reflexivity.
  now rewrite IH.
Qed.

Lemma take_span (cs : cset) (k : nat) (s : string) :
  (k <= span cs s)%nat -> all_chars (cset_mem cs) (take k s) = true.
Proof.
  revert s; induction k as [|k IH]; intros [|c s]; simpl; try reflexivity.
  destruct (cset_mem cs c) eqn:E; intros H; [|lia].
  simpl. apply IH. lia.
Qed.

Lemma take_nonempty (cs : cset) (k : nat) (s : string) :
  (1 <= k <= span cs s)%nat -> take k s <> "".
Proof.
  destruct k as [|k]; [lia|].
  destruct s as [|c s]; simpl; [lia|]. discriminate.
Qed.

Lemma span_append (cs : cset) (w t : string) :
  all_chars (cset_mem cs) w = true ->
  (String.length w <= span cs (w ++ t))%nat.
Proof.
  induction w as [|c w IH]; simpl; [lia|].
  intros H. apply andb_true_iff in H as [Hc Hw].
  rewrite Hc. apply IH in Hw. lia.
Qed.

Lemma take_length_append (w t : string) : take (String.length w) (w ++ t) = w.
Proof. induction w; simpl; [now destruct t|congruence]. Qed.

Lemma drop_length_append (w t : string) : drop (String.length w) (w ++ t) = t.
Proof. induction w; simpl; auto. Qed.

Lemma length_nonempty (w : string) : w <> "" -> (1 <= String.length w)%nat.
Proof. destruct w; simpl; [congruence|lia]. Qed.

(** ** The matcher against the language of a pattern *)

Lemma backtrack_some {R} (f : nat -> option R) (k : nat) (r : R) :
  backtrack f k = Some r -> exists j, (1 <= j <= k)%nat /\ f j = Some r.
Proof.
  induction k as [|k IH]; simpl; [discriminate|].
  destruct (f (S k)) eqn:E.
  - intros [= <-]. exists (S k). split; [lia|exact E].
  - intros H. destruct (IH H) as (j & Hj & Hf). exists j. split; [lia|exact Hf].
Qed.

Lemma backtrack_complete {R} (f : nat -> option R) (k j : nat) (r : R) :
  (1 <= j <= k)%nat -> f j = Some r -> exists r', backtrack f k = Some r'.
Proof.
  induction k as [|k IH]; intros Hj Hf; [lia|].
  simpl. destruct (f (S k)) eqn:E; [eauto|].
  assert (j <> S k) by congruence.
  apply IH; [lia|exact Hf].
Qed.

Lemma re_match_sound (p : regex) :
  forall s g rest,
    re_match p s = Some (g, rest) ->
    exists u, s = u ++ rest /\ matches p u g.
Proof.
  induction p as [|[c|name cs] p IH]; intros s g rest H; simpl in H.
  - injection H as <- <-. exists "". split; [reflexivity|constructor].
  - destruct s as [|c' s]; [discriminate|].
    destruct (Ascii.eqb_spec c c') as [<-|]; [|discriminate].
    destruct (IH _ _ _ H) as (u & -> & Hu).
    exists (String c u). split; [reflexivity|now constructor].
  - apply backtrack_some in H as (j & Hj & H).
    destruct (re_match p (drop j s)) as [[g' rest']|] eqn:E; [|discriminate].
    injection H as <- <-.
    destruct (IH _ _ _ E) as (u & Hs & Hu).
    exists (take j s ++ u). split.
    + rewrite append_assoc, <- Hs. symmetry. apply take_drop.
    + constructor; [eapply take_nonempty; eauto|apply take_span; lia|exact Hu].
Qed.

Lemma re_match_complete (p : regex) :
  forall u g, matches p u g -> forall t, accepts p (u ++ t).
Proof.
  intros u g H. induction H as [|c p u g H IH|name cs p w u g Hw Hcs H IH];
    intros t; unfold accepts in *; simpl.
  - eauto.
  - rewrite Ascii.eqb_refl. apply IH.
  - destruct (IH t) as (g' & rest & E).
    rewrite append_assoc.
    edestruct (backtrack_complete
                 (fun k => match re_match p (drop k (w ++ u ++ t)) with
                           | Some (g0, rest0) =>
                               Some (bind_group name (take k (w ++ u ++ t)) g0,
                                     rest0)
                           | None => None
                           end)
                 (span cs (w ++ u ++ t)) (String.length w)) as ([g1 r1] & E1).
    + split; [now apply length_nonempty|now apply span_append].
    + rewrite drop_length_append, E. reflexivity.
    + eauto.
Qed.

Lemma re_match_groups (p : regex) :
  forall s g rest,
    re_match p s = Some (g, rest) -> Forall2 group_ok (named p) g.
Proof.
  intros s g rest H. apply re_match_sound in H as (u & _ & H).
  induction H as [|c p u g H IH|name cs p w u g Hw Hcs H IH]; simpl.
  - constructor.
  - exact IH.
  - destruct name as [n|]; simpl; [|exact IH].
    constructor; [|exact IH]. split; [reflexivity|split; assumption].
Qed.

Lemma all_chars_ext (f h : ascii -> bool) (s : string) :
  (forall c, f c = h c) -> all_chars f s = all_chars h s.
Proof. intros E. induction s; simpl; [reflexivity|]. now rewrite E, IHs. Qed.

Lemma run_of_ext (f h : ascii -> bool) (s : string) :
  (forall c, f c = h c) -> run_of f s -> run_of h s.
Proof.
  intros E [Hn Ha]. split; [exact Hn|]. now rewrite <- (all_chars_ext f h s E).
Qed.

Lemma groups_keys (ns : list (string * cset)) (g : groupdict) :
  Forall2 group_ok ns g -> keys g = map fst ns.
Proof.
  induction 1 as [|n kv ns g [Hk _] _ IH]; simpl; [reflexivity|].
  now rewrite Hk, IH.
Qed.

Lemma first_match_some (ps : list regex) (line : string) (g : groupdict) :
  first_match ps line = Some g <->
  exists ps1 p ps2 rest,
    ps = (ps1 ++ p :: ps2)%list
    /\ (forall p', In p' ps1 -> re_match p' line = None)
    /\ re_match p line = Some (g, rest).
Proof.
  split.
  - induction ps as [|p ps IH]; simpl; [discriminate|].
    destruct (re_match p line) as [[g' rest]|] eqn:E.
    + intros [= <-]. exists [], p, ps, rest. simpl. intuition.
    + intros H. destruct (IH H) as (ps1 & p0 & ps2 & rest & -> & Hn & Hm).
      exists (p :: ps1), p0, ps2, rest. simpl.
      split; [reflexivity|]. split; [|exact Hm].
      intros p' [<-|Hin]; auto.
  - intros (ps1 & p & ps2 & rest & -> & Hn & Hm).
    induction ps1 as [|a ps1 IH]; simpl.
    + now rewrite Hm.
    + rewrite (Hn a (or_introl eq_refl)). apply IH.
      intros p' Hin. apply Hn. now right.
Qed.

Lemma last_char_append (w u : string) :
  u <> "" -> last_char (w ++ u) = last_char u.
Proof.
  intros Hu. induction w as [|c w IH]; simpl; [reflexivity|].
  rewrite IH. destruct (w ++ u) eqn:E; [|reflexivity].
  destruct w; simpl in E; [congruence|discriminate].
Qed.

Lemma last_char_run (f : ascii -> bool) (w : string) :
  run_of f w -> exists c, last_char w = Some c /\ f c = true.
Proof.
  intros [Hn Ha]. induction w as [|c w IH]; [congruence|].
  simpl in Ha. apply andb_true_iff in Ha as [Hc Hw].
  destruct w as [|c' w]; [exists c; auto|].
  destruct IH as (x & Hx & Hf); [discriminate|exact Hw|].
  exists x. split; [exact Hx|exact Hf].
Qed.

(** A text in the language of a pattern that ends with a repetition ends
    with a character of the repeated set. *)
Lemma matches_last (p : regex) (u : string) (g : groupdict) :
  matches p u g ->
  forall p' name cs, p = (p' ++ [Plus name cs])%list ->
  exists c, last_char u = Some c /\ cset_mem cs c = true.
Proof.
  induction 1 as [|c p u g H IH|name0 cs0 p w u g Hw Hcs H IH];
    intros p' name cs E.
  - destruct p'; discriminate.
  - destruct p' as [|i p']; [discriminate|]. injection E as _ E.
    destruct (IH _ _ _ E) as (x & Hx & Hf).
    exists x. split; [|exact Hf].
    simpl. destruct u; [discriminate|exact Hx].
  - destruct p' as [|i p'].
    + injection E as -> -> ->. inversion H; subst.
      rewrite append_nil_r. apply last_char_run. now split.
    + injection E as _ E.
      destruct (IH _ _ _ E) as (x & Hx & Hf).
      exists x. split; [|exact Hf].
      rewrite last_char_append; [exact Hx|]. intros ->. discriminate.
Qed.

Ltac invert_groups :=
  repeat match goal with
    | H : Forall2 _ (_ :: _) _ |- _ => inversion H; subst; clear H
    | H : Forall2 _ [] _ |- _ => inversion H; subst; clear H
    | H : group_ok _ ?kv |- _ =>
        destruct kv; destruct H as [? ?]; simpl in *; subst
    end.

(** C7: the sample line parses to client 10.0.0.1, method GET, path
    /index.html, status 404 and bytes 1234; ingesting it once into a fresh
    analyzer, whatever its thresholds and the line number, gives
    [total_requests = 1], [status_codes["404"] = 1] and
    [ip_errors["10.0.0.1"] = 1]. *)
Theorem sample_line_scenario (t : Z) (r : num) (line_num : Z) :
  parse_line sample_line
  = Some [("ip", "10.0.0.1"); ("timestamp", "10/Oct/2023:13:55:36 -0700");
          ("method", "GET"); ("endpoint", "/index.html");
          ("status", "404"); ("bytes", "1234")]
  /\ let st := process_line (init t r) line_num sample_line in
     total_requests st = 1
     /\ dict_get (status_codes st) "404" = Some 1
     /\ dict_get (ip_errors st) "10.0.0.1" = Some 1
     /\ ip_requests st = [("10.0.0.1", 1)]
     /\ failed_lines st = [].
Proof.
  assert (E : parse_line sample_line
              = Some [("ip", "10.0.0.1");
                      ("timestamp", "10/Oct/2023:13:55:36 -0700");
                      ("method", "GET"); ("endpoint", "/index.html");
                      ("status", "404"); ("bytes", "1234")])
    by (vm_compute; reflexivity).
  split; [exact E|].
  unfold process_line. rewrite E. cbv. repeat split.
Qed.

Ltac shape :=
  eapply run_of_ext; [|eassumption];
  intros ?; unfold digit_or, not_space; simpl; rewrite ?orb_false_r;
  reflexivity.

(** C8 (amended): for every line that one of the three patterns accepts, the
    client address is a non-empty run of digits and dots, the method a
    non-empty run of word characters, the path a non-empty run of
    non-whitespace, the status code a non-empty run of digits, and the byte
    count a non-empty run of digits and dashes. *)
Theorem extracted_fields_shape
  (p : regex) (s : string) (g : groupdict) (rest : string) :
  In p patterns ->
  re_match p s = Some (g, rest) ->
  exists ip method endpoint status bytes,
    dict_get g "ip" = Some ip
    /\ dict_get g "method" = Some method
    /\ dict_get g "endpoint" = Some endpoint
    /\ dict_get g "status" = Some status
    /\ dict_get g "bytes" = Some bytes
    /\ run_of (digit_or ".") ip
    /\ run_of is_word method
    /\ run_of not_space endpoint
    /\ run_of is_digit status
    /\ run_of (digit_or "-") bytes.
Proof.
  intros Hp H. apply re_match_groups in H.
  destruct Hp as [<-|[<-|[<-|[]]]]; cbv [named] in H.
  all: cbn in H; invert_groups.
  all: do 5 eexists; cbn [dict_get String.eqb Ascii.eqb Bool.eqb].
  all: repeat (split; [reflexivity|]).
  all: repeat split; try assumption; try shape.
Qed.

Lemma accepts_prefix (p : regex) (s : string) :
  accepts p s <-> exists u t g, s = u ++ t /\ matches p u g.
Proof.
  split.
  - intros (g & rest & H). apply re_match_sound in H as (u & Hs & Hu).
    exists u, rest, g. split; assumption.
  - intros (u & t & g & -> & Hu). eapply re_match_complete; eauto.
Qed.

(** C9 (amended): a pattern succeeds exactly when some prefix of the line,
    taken from its first character, has the shape of the pattern; text after
    the match does not prevent it, so a line that a pattern accepts is still
    accepted with any text appended.  [parse_line] returns the groups of the
    first pattern, in the order Apache, Nginx, extended, that succeeds on
    the stripped line, and succeeds only on a stripped line that is not
    empty. *)
Theorem first_prefix_match_wins :
  (forall p s, accepts p s <-> exists u t g, s = u ++ t /\ matches p u g)
  /\ (forall p s t, accepts p s -> accepts p (s ++ t))
  /\ (forall line g,
        parse_line line = Some g <->
        strip line <> ""
        /\ exists ps1 p ps2 rest,
             [APACHE_COMBINED; NGINX_COMBINED; EXTENDED_FORMAT]
             = (ps1 ++ p :: ps2)%list
             /\ (forall p', In p' ps1 -> re_match p' (strip line) = None)
             /\ re_match p (strip line) = Some (g, rest)).
Proof.
  split; [exact accepts_prefix|]. split.
  - intros p s t H. apply accepts_prefix in H as (u & t' & g & -> & Hu).
    rewrite append_assoc. eapply re_match_complete; eauto.
  - intros line g. unfold parse_line.
    destruct (strip line) as [|c s] eqn:E; cbn [is_empty].
    + split; [discriminate|]. intros [H _]. congruence.
    + rewrite first_match_some. unfold patterns.
      split; [intros H; split; [discriminate|exact H]|intros [_ H]; exact H].
Qed.

(** C10 (amended): when parsing succeeds, the record has exactly the six
    fields ip, timestamp, method, endpoint, status and bytes if the first
    pattern accepts the stripped line; otherwise the extended pattern
    accepted it and the record has those six fields and a seventh, user. *)
Theorem parsed_fields (line : string) (g : groupdict) :
  parse_line line = Some g ->
  (accepts APACHE_COMBINED (strip line) /\ keys g = six_fields)
  \/ (re_match APACHE_COMBINED (strip line) = None
      /\ accepts EXTENDED_FORMAT (strip line)
      /\ keys g = seven_fields).
Proof.
  unfold parse_line. destruct (is_empty (strip line)); [discriminate|].
  unfold patterns. cbn [first_match].
  change NGINX_COMBINED with APACHE_COMBINED.
  destruct (re_match APACHE_COMBINED (strip line)) as [[g1 r1]|] eqn:E1.
  - intros [= <-]. left. split; [now exists g1, r1|].
    apply re_match_groups in E1. now rewrite (groups_keys _ _ E1).
  - destruct (re_match EXTENDED_FORMAT (strip line)) as [[g3 r3]|] eqn:E3;
      [|discriminate].
    intros [= <-]. right. split; [reflexivity|]. split; [now exists g3, r3|].
    apply re_match_groups in E3. now rewrite (groups_keys _ _ E3).
Qed.

(** ** Dictionaries *)

Lemma dict_get_add_same (d : dict Z) (k : string) (n : Z) :
  dict_get (dict_add d k n) k = Some (dict_get_default d k 0 + n).
Proof.
  unfold dict_get_default.
  induction d as [|[k' v] d IH]; simpl.
  - now rewrite String.eqb_refl.
  - destruct (String.eqb k' k) eqn:E; simpl; rewrite E; [reflexivity|exact IH].
Qed.

Lemma dict_get_add_other (d : dict Z) (k k' : string) (n : Z) :
  k <> k' -> dict_get (dict_add d k n) k' = dict_get d k'.
Proof.
  intros Hk. induction d as [|[k0 v] d IH]; simpl.
  - apply String.eqb_neq in Hk. now rewrite Hk.
  - destruct (String.eqb k0 k) eqn:E; simpl.
    + apply String.eqb_eq in E. subst k0.
      apply String.eqb_neq in Hk. now rewrite Hk.
    + now rewrite IH.
Qed.

Lemma sum_shift (l : list Z) (a : Z) : fold_left Z.add l a = a + sum l.
Proof.
  unfold sum. revert a. induction l as [|x l IH]; intros a; simpl; [lia|].
  rewrite (IH (a + x)), (IH x). lia.
Qed.

Lemma sum_cons (x : Z) (l : list Z) : sum (x :: l) = x + sum l.
Proof. unfold sum at 1. simpl. apply sum_shift. Qed.

Lemma sum_values_add (d : dict Z) (k : string) (n : Z) :
  sum (values (dict_add d k n)) = sum (values d) + n.
Proof.
  unfold values. induction d as [|[k' v] d IH]; cbn [dict_add].
  - reflexivity.
  - destruct (String.eqb k' k); cbn [map snd]; rewrite !sum_cons.
    + lia.
    + rewrite IH. lia.
Qed.

(** ** Ingestion *)

Lemma process_line_cases (st : LogAnalyzer) (line_num : Z) (line : string) :
  (parses line = true
   /\ exists g, parse_line line = Some g
                /\ process_line st line_num line = _update_statistics st g)
  \/ (parses line = false
      /\ process_line st line_num line = record_failure st line_num line).
Proof.
  unfold process_line, parses.
  destruct (parse_line line) as [[|kv g]|]; eauto.
Qed.

Lemma ingest_all_invariant (P : LogAnalyzer -> Prop) :
  (forall st line_num line, P st -> P (process_line st line_num line)) ->
  forall calls st, P st -> P (ingest_all st calls).
Proof.
  intros Hstep. unfold ingest_all.
  induction calls as [|c calls IH]; intros st H; simpl; auto.
Qed.

Lemma record_failure_counters (st : LogAnalyzer) (line_num : Z) (line : string) :
  counters (record_failure st line_num line) = counters st.
Proof.
  unfold record_failure.
  destruct (List.length (failed_lines st) <? 10)%nat; reflexivity.
Qed.

(** C2: after any sequence of ingested lines, starting from a fresh
    analyzer, [total_requests] is the sum of the values of [ip_requests]. *)
Theorem total_is_sum_of_clients (t : Z) (r : num) (calls : list (Z * string)) :
  total_requests (ingest_all (init t r) calls)
  = sum (values (ip_requests (ingest_all (init t r) calls))).
Proof.
  apply (ingest_all_invariant
           (fun st => total_requests st = sum (values (ip_requests st))));
    [|reflexivity].
  intros st n line H.
  destruct (process_line_cases st n line) as [(_ & g & _ & ->)|(_ & ->)].
  - simpl. rewrite sum_values_add. lia.
  - unfold record_failure.
    destruct (List.length (failed_lines st) <? 10)%nat; exact H.
Qed.

Lemma errors_covered_step (st : LogAnalyzer) (line_num : Z) (line : string) :
  errors_covered st -> errors_covered (process_line st line_num line).
Proof.
  intros [Hpos Hcov].
  destruct (process_line_cases st line_num line)
    as [(_ & g & _ & ->)|(_ & ->)].
  - set (ip := dict_get_default g "ip" "unknown").
    assert (Hreq : 0 <= dict_get_default (ip_requests st) ip 0).
    { unfold dict_get_default.
      destruct (dict_get (ip_requests st) ip) eqn:E; [|lia].
      apply Hpos in E. lia. }
    split; simpl; fold ip.
    + intros c n. destruct (String.eqb_spec ip c) as [<-|Hne].
      * rewrite dict_get_add_same. intros [= <-]. lia.
      * rewrite dict_get_add_other by exact Hne. apply Hpos.
    + intros c e He. destruct (String.eqb_spec ip c) as [<-|Hne].
      * rewrite dict_get_add_same. eexists. split; [reflexivity|].
        destruct (is_error_status _).
        -- rewrite dict_get_add_same in He. injection He as <-.
           unfold dict_get_default at 1.
           destruct (dict_get (ip_errors st) ip) eqn:E; [|lia].
           apply Hcov in E as (n & En & Hle).
           unfold dict_get_default. rewrite En. lia.
        -- apply Hcov in He as (n & En & Hle).
           unfold dict_get_default. rewrite En. lia.
      * rewrite dict_get_add_other by exact Hne.
        destruct (is_error_status _).
        -- rewrite dict_get_add_other in He by exact Hne. now apply Hcov.
        -- now apply Hcov.
  - unfold record_failure.
    destruct (List.length (failed_lines st) <? 10)%nat; split; assumption.
Qed.

(** C3: after any sequence of ingested lines, starting from a fresh
    analyzer, every client of [ip_errors] is a client of [ip_requests], with
    an error count that is at most its request count. *)
Theorem errors_within_requests
  (t : Z) (r : num) (calls : list (Z * string)) (c : string) (e : Z) :
  dict_get (ip_errors (ingest_all (init t r) calls)) c = Some e ->
  exists n,
    dict_get (ip_requests (ingest_all (init t r) calls)) c = Some n /\ e <= n.
Proof.
  apply (ingest_all_invariant errors_covered).
  - apply errors_covered_step.
  - split; simpl; discriminate.
Qed.

Lemma parse_line_blank (line : string) : strip line = "" -> parse_line line = None.
Proof. unfold parse_line. now intros ->. Qed.

(** C4 (amended): a line that is empty after stripping yields no match and
    leaves every counter unchanged; like any other line without a match it
    is recorded in the sample of unparsable lines, with empty text, while
    the sample holds fewer than 10 entries. *)
Theorem blank_line_recorded (st : LogAnalyzer) (line_num : Z) (line : string) :
  strip line = "" ->
  parse_line line = None
  /\ counters (process_line st line_num line) = counters st
  /\ failed_lines (process_line st line_num line)
     = if (List.length (failed_lines st) <? 10)%nat
       then (failed_lines st ++ [(line_num, "")])%list
       else failed_lines st.
Proof.
  intros E. pose proof (parse_line_blank line E) as Hp.
  split; [exact Hp|].
  unfold process_line. rewrite Hp.
  split; [apply record_failure_counters|].
  unfold record_failure. rewrite E.
  destruct (List.length (failed_lines st) <? 10)%nat; reflexivity.
Qed.

Lemma failed_lines_step (st : LogAnalyzer) (line_num : Z) (line : string) :
  failed_lines (process_line st line_num line)
  = if parses line then failed_lines st
    else if (List.length (failed_lines st) <? 10)%nat
         then (failed_lines st ++ [(line_num, take 100 (strip line))])%list
         else failed_lines st.
Proof.
  destruct (process_line_cases st line_num line)
    as [(-> & g & _ & ->)|(-> & ->)]; [reflexivity|].
  unfold record_failure.
  destruct (List.length (failed_lines st) <? 10)%nat; reflexivity.
Qed.

Lemma failed_lines_ingest (calls : list (Z * string)) :
  forall st,
    (List.length (failed_lines st) <= 10)%nat ->
    failed_lines (ingest_all st calls)
    = firstn 10 (failed_lines st ++ failures calls)%list.
Proof.
  unfold ingest_all, failures.
  induction calls as [|[n line] calls IH]; intros st Hlen; cbn [fold_left].
  - cbn [filter map]. rewrite app_nil_r. symmetry. now apply firstn_all2.
  - cbn [filter fst snd].
    pose proof (failed_lines_step st n line) as Hs.
    destruct (parses line); cbn [negb] in *.
    + rewrite IH by (rewrite Hs; exact Hlen). now rewrite Hs.
    + cbn [map fst snd].
      destruct (Nat.ltb_spec (List.length (failed_lines st)) 10) as [Hlt|Hge].
      * rewrite IH by (rewrite Hs, length_app; simpl; lia).
        rewrite Hs, <- app_assoc. reflexivity.
      * rewrite IH by (rewrite Hs; exact Hlen). rewrite Hs.
        rewrite !firstn_app.
        replace (10 - List.length (failed_lines st))%nat with O by lia.
        reflexivity.
Qed.

(** C5: whatever lines are ingested, the sample of unparsable lines holds at
    most 10 entries; a line without a match is appended only while the
    sample holds fewer than 10, as the pair of its line number and the first
    100 characters of the stripped line, and a line with a match leaves the
    sample as it is; so the sample is the first 10 such pairs. *)
Theorem failed_lines_bounded (t : Z) (r : num) (calls : list (Z * string)) :
  (List.length (failed_lines (ingest_all (init t r) calls)) <= 10)%nat
  /\ failed_lines (ingest_all (init t r) calls) = firstn 10 (failures calls)
  /\ forall st line_num line,
       failed_lines (process_line st line_num line)
       = if parses line then failed_lines st
         else if (List.length (failed_lines st) <? 10)%nat
              then (failed_lines st
                    ++ [(line_num, take 100 (strip line))])%list
              else failed_lines st.
Proof.
  assert (E : failed_lines (ingest_all (init t r) calls)
              = firstn 10 (failures calls)).
  { rewrite failed_lines_ingest by (simpl; lia). reflexivity. }
  split; [|split; [exact E|exact failed_lines_step]].
  rewrite E. apply firstn_le_length.
Qed.

(** ** Stable descending sort *)

Lemma insert_desc_perm {A} (key : A -> Z) (x : A) (l : list A) :
  Permutation (insert_desc key x l) (x :: l).
Proof.
  induction l as [|y l IH]; simpl; [reflexivity|].
  destruct (key x <? key y); [|reflexivity].
  rewrite IH. apply perm_swap.
Qed.

Lemma sort_desc_perm {A} (key : A -> Z) (l : list A) :
  Permutation (sort_desc key l) l.
Proof.
  induction l as [|x l IH]; simpl; [reflexivity|].
  rewrite insert_desc_perm. now constructor.
Qed.

Lemma insert_desc_sorted {A} (key : A -> Z) (x : A) (l : list A) :
  StronglySorted (fun a b => key a >= key b) l ->
  StronglySorted (fun a b => key a >= key b) (insert_desc key x l).
Proof.
  induction 1 as [|y l Hs IH Hy]; simpl.
  - repeat constructor.
  - destruct (Z.ltb_spec (key x) (key y)) as [Hlt|Hge].
    + constructor; [exact IH|].
      eapply Permutation_Forall; [symmetry; apply insert_desc_perm|].
      constructor; [lia|exact Hy].
    + constructor; [now constructor|].
      constructor; [lia|].
      eapply Forall_impl; [|exact Hy]. simpl. intros a Ha. lia.
Qed.

Lemma sort_desc_sorted {A} (key : A -> Z) (l : list A) :
  StronglySorted (fun a b => key a >= key b) (sort_desc key l).
Proof.
  induction l as [|x l IH]; simpl; [constructor|].
  now apply insert_desc_sorted.
Qed.

Lemma filter_insert_desc {A} (key : A -> Z) (k : Z) (x : A) (l : list A) :
  filter (fun a => key a =? k) (insert_desc key x l)
  = filter (fun a => key a =? k) (x :: l).
Proof.
  induction l as [|y l IH]; [reflexivity|].
  cbn [insert_desc].
  destruct (Z.ltb_spec (key x) (key y)) as [Hlt|Hge]; [|reflexivity].
  cbn [filter] in *. rewrite IH.
  destruct (Z.eqb_spec (key x) k), (Z.eqb_spec (key y) k);
    try reflexivity; lia.
Qed.

(** Stability: the elements of any one key keep their original order. *)
Lemma filter_sort_desc {A} (key : A -> Z) (k : Z) (l : list A) :
  filter (fun a => key a =? k) (sort_desc key l)
  = filter (fun a => key a =? k) l.
Proof.
  induction l as [|x l IH]; [reflexivity|].
  cbn [sort_desc]. rewrite filter_insert_desc. cbn [filter]. now rewrite IH.
Qed.

(** ** Suspicious clients *)

Lemma collect_filter_map {A B} (test : A -> bool) (mk : A -> B) (l : list A) :
  forall acc,
    fold_left (fun acc x => if test x then (acc ++ [mk x])%list else acc) l acc
    = (acc ++ map mk (filter test l))%list.
Proof.
  induction l as [|x l IH]; intros acc; simpl.
  - now rewrite app_nil_r.
  - rewrite IH. destruct (test x); [|reflexivity].
    simpl. now rewrite <- app_assoc.
Qed.

Lemma identify_suspicious_ips_sorted_candidates (st : LogAnalyzer) :
  (forall ip total, In (ip, total) (ip_requests st) -> 0 < total) ->
  identify_suspicious_ips st = sort_desc suspect_errors (candidates st).
Proof.
  intros Hpos. unfold identify_suspicious_ips, candidates.
  rewrite (collect_filter_map
             (fun item =>
                (dict_get_default (ip_errors st) (fst item) 0
                 >=? error_threshold st)
                && num_ge
                     (error_rate
                        (dict_get_default (ip_errors st) (fst item) 0)
                        (snd item))
                     (error_rate_threshold st))
             (fun item =>
                (fst item, snd item,
                 dict_get_default (ip_errors st) (fst item) 0,
                 error_rate (dict_get_default (ip_errors st) (fst item) 0)
                   (snd item)))).
  cbn [app]. f_equal.
  assert (Hrate : forall item, In item (ip_requests st) ->
            error_rate (dict_get_default (ip_errors st) (fst item) 0)
              (snd item)
            = true_div (dict_get_default (ip_errors st) (fst item) 0)
                (snd item)).
  { intros [ip total] Hin. apply Hpos in Hin. unfold error_rate. simpl.
    destruct (Z.gtb_spec total 0); [reflexivity|lia]. }
  rewrite (filter_ext_in _ (is_suspicious st)).
  - apply map_ext_in. intros item Hin. apply filter_In in Hin as [Hin _].
    unfold suspect_of. now rewrite Hrate.
  - intros item Hin. unfold is_suspicious. now rewrite Hrate.
Qed.

Lemma in_candidates (st : LogAnalyzer) (ip : string) (total errors : Z)
  (rate : num) :
  In (ip, total, errors, rate) (candidates st) <->
  In (ip, total) (ip_requests st)
  /\ errors = dict_get_default (ip_errors st) ip 0
  /\ rate = true_div errors total
  /\ errors >= error_threshold st
  /\ num_ge rate (error_rate_threshold st) = true.
Proof.
  unfold candidates. rewrite in_map_iff. split.
  - intros ([ip' total'] & E & Hin). apply filter_In in Hin as [Hin Hs].
    unfold suspect_of in E. simpl in E. injection E as -> -> <- <-.
    unfold is_suspicious in Hs. simpl in Hs.
    apply andb_true_iff in Hs as [Hc Hr].
    repeat split; try assumption. apply Z.geb_le in Hc. lia.
  - intros (Hin & -> & -> & Hc & Hr). exists (ip, total).
    split; [reflexivity|]. apply filter_In. split; [exact Hin|].
    unfold is_suspicious. simpl. rewrite Hr, andb_true_r.
    apply Z.geb_le. lia.
Qed.

(** C1: in a state whose request counts are positive,
    [identify_suspicious_ips] returns exactly the clients of [ip_requests]
    whose error count is at least the error threshold and whose error rate
    [errors / requests] is at least the rate threshold, both at once; the
    list is in descending order of error count, clients with the same error
    count in the order of [ip_requests]; a client that fails either
    inequality is not in the list. *)
Theorem suspicious_clients_spec (st : LogAnalyzer) :
  (forall ip total, In (ip, total) (ip_requests st) -> 0 < total) ->
  (forall ip total errors rate,
     In (ip, total, errors, rate) (identify_suspicious_ips st) <->
     In (ip, total) (ip_requests st)
     /\ errors = dict_get_default (ip_errors st) ip 0
     /\ rate = true_div errors total
     /\ errors >= error_threshold st
     /\ num_ge rate (error_rate_threshold st) = true)
  /\ Permutation (identify_suspicious_ips st) (candidates st)
  /\ StronglySorted (fun a b => suspect_errors a >= suspect_errors b)
       (identify_suspicious_ips st)
  /\ (forall k,
        filter (fun x => suspect_errors x =? k) (identify_suspicious_ips st)
        = filter (fun x => suspect_errors x =? k) (candidates st))
  /\ (forall ip total,
        In (ip, total) (ip_requests st) ->
        dict_get_default (ip_errors st) ip 0 < error_threshold st
        \/ num_ge (true_div (dict_get_default (ip_errors st) ip 0) total)
             (error_rate_threshold st) = false ->
        forall errors rate,
          ~ In (ip, total, errors, rate) (identify_suspicious_ips st)).
Proof.
  intros Hpos.
  rewrite (identify_suspicious_ips_sorted_candidates st Hpos).
  assert (Hin : forall x, In x (sort_desc suspect_errors (candidates st))
                          <-> In x (candidates st)).
  { intros x. split; apply Permutation_in;
      [|symmetry]; apply sort_desc_perm. }
  split; [|split; [|split; [|split]]].
  - intros ip total errors rate. rewrite Hin. apply in_candidates.
  - apply sort_desc_perm.
  - apply sort_desc_sorted.
  - intros k. apply filter_sort_desc.
  - intros ip total _ Hfail errors rate H.
    apply Hin, in_candidates in H as (_ & -> & -> & Hc & Hr).
    destruct Hfail as [Hlt|Hf]; [lia|congruence].
Qed.

(** ** Merging states *)

Lemma dict_mem_add_same (d : dict Z) (k : string) (n : Z) :
  dict_mem (dict_add d k n) k = true.
Proof. unfold dict_mem. now rewrite dict_get_add_same. Qed.

Lemma dict_mem_add (d : dict Z) (k k' : string) (n : Z) :
  dict_mem d k = true -> dict_mem (dict_add d k' n) k = true.
Proof.
  destruct (String.eqb_spec k' k) as [->|Hne].
  - intros _. apply dict_mem_add_same.
  - unfold dict_mem. now rewrite dict_get_add_other.
Qed.

Lemma dict_add_twice (d : dict Z) (k : string) (v w : Z) :
  dict_add (dict_add d k v) k w = dict_add d k (v + w).
Proof.
  induction d as [|[k0 v0] d IH]; cbn [dict_add].
  - rewrite String.eqb_refl. f_equal.
  - destruct (String.eqb k0 k) eqn:E; cbn [dict_add]; rewrite E.
    + f_equal. f_equal. lia.
    + now rewrite IH.
Qed.

(** An update of a key that is present commutes with any other update. *)
Lemma dict_add_comm (d : dict Z) (k k' : string) (n n' : Z) :
  dict_mem d k = true ->
  dict_add (dict_add d k n) k' n' = dict_add (dict_add d k' n') k n.
Proof.
  unfold dict_mem.
  induction d as [|[k0 v0] d IH]; cbn [dict_get dict_add]; [discriminate|].
  destruct (String.eqb k0 k) eqn:E, (String.eqb k0 k') eqn:E';
    cbn [dict_add]; rewrite ?E, ?E'; intros H.
  - f_equal. f_equal. lia.
  - reflexivity.
  - reflexivity.
  - f_equal. now apply IH.
Qed.

Lemma dict_merge_add_present (b : dict Z) :
  forall (a : dict Z) (k : string) (n : Z),
    dict_mem a k = true ->
    dict_merge (dict_add a k n) b = dict_add (dict_merge a b) k n.
Proof.
  unfold dict_merge.
  induction b as [|[k' v'] b IH]; intros a k n Hk; cbn [fold_left fst snd].
  - reflexivity.
  - rewrite dict_add_comm by exact Hk. apply IH. now apply dict_mem_add.
Qed.

Lemma dict_merge_add (b : dict Z) :
  forall (a : dict Z) (k : string) (n : Z),
    dict_merge a (dict_add b k n) = dict_add (dict_merge a b) k n.
Proof.
  induction b as [|[k' v'] b IH]; intros a k n; cbn [dict_add].
  - reflexivity.
  - destruct (String.eqb_spec k' k) as [->|Hne].
    + unfold dict_merge. cbn [fold_left fst snd].
      rewrite <- dict_add_twice.
      apply dict_merge_add_present, dict_mem_add_same.
    + unfold dict_merge in *. cbn [fold_left fst snd]. apply IH.
Qed.

Lemma counters_inv (a b : LogAnalyzer) :
  counters a = counters b ->
  error_threshold a = error_threshold b
  /\ error_rate_threshold a = error_rate_threshold b
  /\ total_requests a = total_requests b
  /\ ip_requests a = ip_requests b
  /\ ip_errors a = ip_errors b
  /\ endpoints a = endpoints b
  /\ status_codes a = status_codes b
  /\ methods a = methods b.
Proof. unfold counters. intros [= -> -> -> -> -> -> -> ->]. repeat split. Qed.

Ltac same_counters H :=
  apply counters_inv in H;
  let E1 := fresh in let E2 := fresh in let E3 := fresh in
  let E4 := fresh in let E5 := fresh in let E6 := fresh in
  let E7 := fresh in let E8 := fresh in
  destruct H as (E1 & E2 & E3 & E4 & E5 & E6 & E7 & E8);
  unfold counters; cbn;
  rewrite ?E1, ?E2, ?E3, ?E4, ?E5, ?E6, ?E7, ?E8.

Lemma process_line_counters (a b : LogAnalyzer) (n m : Z) (line : string) :
  counters a = counters b ->
  counters (process_line a n line) = counters (process_line b m line).
Proof.
  intros H.
  destruct (process_line_cases a n line) as [(Hp & g & Hg & ->)|(Hp & ->)];
    destruct (process_line_cases b m line) as [(Hp' & g' & Hg' & ->)|(Hp' & ->)];
    try congruence.
  - rewrite Hg in Hg'. injection Hg' as <-.
    same_counters H. reflexivity.
  - now rewrite !record_failure_counters.
Qed.

Lemma ingest_all_counters (c1 : list (Z * string)) :
  forall c2 a b,
    map snd c1 = map snd c2 ->
    counters a = counters b ->
    counters (ingest_all a c1) = counters (ingest_all b c2).
Proof.
  unfold ingest_all.
  induction c1 as [|[n x] c1 IH]; intros [|[m y] c2] a b Hl H;
    try discriminate; cbn [fold_left fst snd]; [exact H|].
  cbn [map snd] in Hl. injection Hl as -> Hl.
  apply IH; [exact Hl|]. now apply process_line_counters.
Qed.

Lemma enumerate_lines {A} (l : list A) :
  forall n, map snd (enumerate n l) = l.
Proof. induction l as [|x l IH]; intros n; simpl; [|rewrite IH]; reflexivity. Qed.

Lemma merge_process_line (a b : LogAnalyzer) (n m : Z) (line : string) :
  counters (merge_states a (process_line b n line))
  = counters (process_line (merge_states a b) m line).
Proof.
  destruct (process_line_cases b n line) as [(Hp & g & Hg & ->)|(Hp & ->)];
    destruct (process_line_cases (merge_states a b) m line)
      as [(Hp' & g' & Hg' & ->)|(Hp' & ->)];
    try congruence.
  - rewrite Hg in Hg'. injection Hg' as <-.
    unfold counters. cbn -[dict_merge dict_add Z.add].
    rewrite !dict_merge_add, Z.add_assoc.
    destruct (is_error_status _); [rewrite dict_merge_add|]; reflexivity.
  - rewrite record_failure_counters.
    pose proof (record_failure_counters b n line) as H.
    same_counters H. reflexivity.
Qed.

Lemma merge_ingest (calls : list (Z * string)) :
  forall calls' a b,
    map snd calls = map snd calls' ->
    counters (merge_states a (ingest_all b calls))
    = counters (ingest_all (merge_states a b) calls').
Proof.
  induction calls as [|[n x] calls IH]; intros [|[m y] calls'] a b Hl;
    try discriminate; [reflexivity|].
  cbn [map snd] in Hl. injection Hl as -> Hl.
  unfold ingest_all in *. cbn [fold_left fst snd].
  rewrite (IH calls' a (process_line b n y) Hl).
  apply (ingest_all_counters calls' calls'); [reflexivity|].
  apply merge_process_line.
Qed.

Lemma merge_fresh (a : LogAnalyzer) (t : Z) (r : num) :
  counters (merge_states a (init t r)) = counters a.
Proof. unfold counters. cbn. now rewrite Z.add_0_r. Qed.

Lemma merge_chunk (a : LogAnalyzer) (t : Z) (r : num) (lines : list string) :
  counters (merge_states a (process_log_file (init t r) lines))
  = counters (process_log_file a lines).
Proof.
  unfold process_log_file.
  rewrite (merge_ingest _ (enumerate 1 lines)) by reflexivity.
  apply ingest_all_counters; [reflexivity|apply merge_fresh].
Qed.

Lemma process_log_file_app (a : LogAnalyzer) (l1 l2 : list string) :
  counters (process_log_file a (l1 ++ l2))
  = counters (process_log_file (process_log_file a l1) l2).
Proof.
  unfold process_log_file.
  transitivity
    (counters (ingest_all a (enumerate 1 l1 ++ enumerate 1 l2)%list)).
  - apply ingest_all_counters; [|reflexivity].
    now rewrite map_app, !enumerate_lines.
  - unfold ingest_all. now rewrite fold_left_app.
Qed.

Lemma merge_states_counters (a a' b : LogAnalyzer) :
  counters a = counters a' ->
  counters (merge_states a b) = counters (merge_states a' b).
Proof. intros H. same_counters H. reflexivity. Qed.

Lemma fold_merge_counters (l : list LogAnalyzer) :
  forall a a',
    counters a = counters a' ->
    counters (fold_left merge_states l a)
    = counters (fold_left merge_states l a').
Proof.
  induction l as [|b l IH]; intros a a' H; cbn [fold_left]; [exact H|].
  apply IH. now apply merge_states_counters.
Qed.

Lemma merge_chunks_counters (t : Z) (r : num) (chunks : list (list string)) :
  forall acc,
    counters (fold_left merge_states
                (map (process_log_file (init t r)) chunks) acc)
    = counters (process_log_file acc (List.concat chunks)).
Proof.
  induction chunks as [|c chunks IH]; intros acc; cbn [map fold_left List.concat].
  - reflexivity.
  - rewrite process_log_file_app, <- IH.
    apply fold_merge_counters, merge_chunk.
Qed.

Lemma generate_statistics_counters (a b : LogAnalyzer) :
  counters a = counters b -> generate_statistics a = generate_statistics b.
Proof.
  intros H. apply counters_inv in H.
  destruct a, b. cbn in H.
  destruct H as (-> & -> & -> & -> & -> & -> & -> & ->).
  reflexivity.
Qed.

(** C6: for every list of contiguous chunks of lines, ingesting each chunk
    into a fresh state, merging the states by summing their counters and
    deriving the report from the merged state gives the same report as
    ingesting the concatenation of the chunks into one state. *)
Theorem merge_law (t : Z) (r : num) (chunks : list (list string)) :
  generate_statistics (merge_chunks t r chunks)
  = generate_statistics (process_log_file (init t r) (List.concat chunks)).
Proof.
  apply generate_statistics_counters, merge_chunks_counters.
Qed.

Lemma dict_add_positive (d : dict Z) (k : string) (n : Z) :
  0 < n ->
  Forall (fun kv => 0 < snd kv) d ->
  Forall (fun kv => 0 < snd kv) (dict_add d k n).
Proof.
  intros Hn. induction 1 as [|[k' v] d Hv Hd IH]; cbn [dict_add].
  - constructor; [simpl; lia|constructor].
  - simpl in Hv. destruct (String.eqb k' k); constructor; simpl; auto; lia.
Qed.

(** Every request count of a state reached by ingestion is positive. *)
Lemma reachable_counts_positive
  (t : Z) (r : num) (calls : list (Z * string)) (ip : string) (total : Z) :
  In (ip, total) (ip_requests (ingest_all (init t r) calls)) -> 0 < total.
Proof.
  intros Hin.
  assert (H : Forall (fun kv => 0 < snd kv)
                (ip_requests (ingest_all (init t r) calls))).
  { apply (ingest_all_invariant
             (fun st => Forall (fun kv => 0 < snd kv) (ip_requests st)));
      [|constructor].
    intros st n line H.
    destruct (process_line_cases st n line) as [(_ & g & _ & ->)|(_ & ->)].
    - simpl. apply dict_add_positive; [lia|exact H].
    - unfold record_failure.
      destruct (List.length (failed_lines st) <? 10)%nat; exact H. }
  rewrite Forall_forall in H. exact (H _ Hin).
Qed.

(** ** Stripping *)

Lemma lstrip_blank (w : string) : is_blank w = true -> lstrip w = "".
Proof.
  unfold is_blank. induction w as [|c w IH]; simpl; [reflexivity|].
  intros H. apply andb_true_iff in H as [Hc Hw]. rewrite Hc. auto.
Qed.

Lemma rstrip_blank (w : string) : is_blank w = true -> rstrip w = "".
Proof.
  unfold is_blank. induction w as [|c w IH]; simpl; [reflexivity|].
  intros H. apply andb_true_iff in H as [Hc Hw]. rewrite (IH Hw), Hc.
  reflexivity.
Qed.

Lemma lstrip_append (a b : string) :
  lstrip (a ++ b)
  = match lstrip a with
    | EmptyString => lstrip b
    | String c a' => String c a' ++ b
    end.
Proof.
  induction a as [|c a IH]; simpl; [now destruct (lstrip b)|].
  destruct (is_space c); [exact IH|reflexivity].
Qed.

Lemma rstrip_append_blank (s w : string) :
  is_blank w = true -> rstrip (s ++ w) = rstrip s.
Proof.
  intros Hw. induction s as [|c s IH]; simpl.
  - now apply rstrip_blank.
  - now rewrite IH.
Qed.

Lemma strip_padding (w1 w2 line : string) :
  is_blank w1 = true -> is_blank w2 = true ->
  strip (w1 ++ line ++ w2) = strip line.
Proof.
  intros H1 H2. unfold strip.
  rewrite lstrip_append, (lstrip_blank w1 H1), lstrip_append.
  destruct (lstrip line) as [|c l] eqn:E.
  - now rewrite (lstrip_blank w2 H2).
  - now apply rstrip_append_blank.
Qed.

(** X1: whitespace around a line never matters: with blank text before and
    after it, a line parses to the same record and takes the analyzer to
    the same state, sample of unparsable lines included. *)
Theorem padding_ignored
  (st : LogAnalyzer) (line_num : Z) (w1 w2 line : string) :
  is_blank w1 = true -> is_blank w2 = true ->
  parse_line (w1 ++ line ++ w2) = parse_line line
  /\ process_line st line_num (w1 ++ line ++ w2)
     = process_line st line_num line.
Proof.
  intros H1 H2. pose proof (strip_padding w1 w2 line H1 H2) as E.
  assert (Hp : parse_line (w1 ++ line ++ w2) = parse_line line)
    by (unfold parse_line; now rewrite E).
  split; [exact Hp|].
  unfold process_line, record_failure. now rewrite Hp, E.
Qed.

(** ** The shape of an accepted line *)

Lemma matches_lit_inv (c : ascii) (p : regex) (u : string) (g : groupdict) :
  matches (Lit c :: p) u g -> exists u', u = String c u' /\ matches p u' g.
Proof. inversion 1; subst; eauto. Qed.

Lemma matches_plus_inv
  (name : option string) (cs : cset) (p : regex) (u : string) (g : groupdict) :
  matches (Plus name cs :: p) u g ->
  exists w u' g',
    u = w ++ u' /\ g = bind_group name w g'
    /\ run_of (cset_mem cs) w /\ matches p u' g'.
Proof. inversion 1; subst. do 3 eexists. repeat split; eauto. Qed.

Lemma parse_line_some (line : string) (g : groupdict) :
  parse_line line = Some g ->
  exists rest,
    re_match APACHE_COMBINED (strip line) = Some (g, rest)
    \/ (re_match APACHE_COMBINED (strip line) = None
        /\ re_match EXTENDED_FORMAT (strip line) = Some (g, rest)).
Proof.
  unfold parse_line. destruct (is_empty (strip line)); [discriminate|].
  unfold patterns. cbn [first_match].
  change NGINX_COMBINED with APACHE_COMBINED.
  destruct (re_match APACHE_COMBINED (strip line)) as [[g1 r1]|] eqn:E1.
  - intros [= <-]. eauto.
  - destruct (re_match EXTENDED_FORMAT (strip line)) as [[g3 r3]|] eqn:E3;
      [|discriminate].
    intros [= <-]. eauto.
Qed.

Ltac invert_head H :=
  repeat first
    [ apply matches_lit_inv in H;
      let u := fresh "u" in destruct H as (u & -> & H)
    | apply matches_plus_inv in H;
      let w := fresh "w" in let u := fresh "u" in let g := fresh "g" in
      let R := fresh "R" in
      destruct H as (w & u & g & -> & -> & R & H) ].

(** X2: the stripped text of a line that parses starts with the client
    address, a non-empty run of digits and dots, followed by a space: the
    address is the whole leading run, and a line with anything before it
    does not parse. *)
Theorem address_leads (line : string) (g : groupdict) :
  parse_line line = Some g ->
  exists ip rest,
    dict_get g "ip" = Some ip
    /\ strip line = ip ++ String " " rest
    /\ run_of (digit_or ".") ip.
Proof.
  intros H. apply parse_line_some in H as (r & [H|[_ H]]);
    apply re_match_sound in H as (u & -> & H).
  - change APACHE_COMBINED
      with (Plus (Some "ip") (Pos [ADigit; AChar "."]) :: Lit " "
            :: tl (tl APACHE_COMBINED)) in H.
    apply matches_plus_inv in H as (w & u1 & g1 & -> & -> & R & H).
    apply matches_lit_inv in H as (u2 & -> & H).
    exists w, (u2 ++ r). split; [reflexivity|]. split.
    + now rewrite append_assoc.
    + shape.
  - change EXTENDED_FORMAT
      with (Plus (Some "ip") (Pos [ADigit; AChar "."]) :: Lit " "
            :: tl (tl EXTENDED_FORMAT)) in H.
    apply matches_plus_inv in H as (w & u1 & g1 & -> & -> & R & H).
    apply matches_lit_inv in H as (u2 & -> & H).
    exists w, (u2 ++ r). split; [reflexivity|]. split.
    + now rewrite append_assoc.
    + shape.
Qed.

Lemma six_fields_no_user (g : groupdict) :
  keys g = six_fields -> dict_get g "user" = None.
Proof.
  unfold keys, six_fields. intros H.
  repeat (destruct g as [|[? ?] g]; [discriminate|];
          cbn [map fst] in H; injection H as -> H).
  destruct g; [reflexivity|discriminate].
Qed.

(** X3: a parsed record carries a user field only when the first pattern
    rejects the line, and the user is then never a lone dash: a dash there
    makes the line one of the first pattern. *)
Theorem user_is_not_dash (line : string) (g : groupdict) (user : string) :
  parse_line line = Some g ->
  dict_get g "user" = Some user ->
  user <> "-" /\ re_match APACHE_COMBINED (strip line) = None.
Proof.
  intros H Hu. apply parse_line_some in H as (r & [H|[Hn H]]).
  - apply re_match_groups, groups_keys in H.
    rewrite (six_fields_no_user g H) in Hu. discriminate.
  - split; [|exact Hn]. intros ->.
    apply re_match_sound in H as (u & Hs & H).
    change EXTENDED_FORMAT
      with (Plus (Some "ip") (Pos [ADigit; AChar "."])
            :: Lit " " :: Lit "-" :: Lit " "
            :: Plus (Some "user") (Pos [AWord; AChar "-"])
            :: Lit " " :: request_tail) in H.
    apply matches_plus_inv in H as (w & u1 & g1 & -> & -> & [Rn Ra] & H).
    apply matches_lit_inv in H as (u2 & -> & H).
    apply matches_lit_inv in H as (u3 & -> & H).
    apply matches_lit_inv in H as (u4 & -> & H).
    apply matches_plus_inv in H as (wu & u5 & g2 & -> & -> & _ & H).
    apply matches_lit_inv in H as (u6 & -> & H).
    cbn [bind_group dict_get String.eqb Ascii.eqb Bool.eqb] in Hu.
    injection Hu as ->.
    assert (Ha : accepts APACHE_COMBINED (strip line)).
    { rewrite Hs.
      apply (re_match_complete APACHE_COMBINED _
               (bind_group (Some "ip") w g2)).
      change APACHE_COMBINED
        with (Plus (Some "ip") (Pos [ADigit; AChar "."])
              :: Lit " " :: Lit "-" :: Lit " " :: Lit "-" :: Lit " "
              :: request_tail).
      constructor; [exact Rn|exact Ra|].
      repeat constructor. exact H. }
    destruct Ha as (g' & r' & Ha). congruence.
Qed.

Lemma span_drop_span (cs : cset) (s : string) :
  span cs (drop (span cs s) s) = O.
Proof.
  induction s as [|c s IH]; simpl; [reflexivity|].
  destruct (cset_mem cs c) eqn:E; simpl; [exact IH|now rewrite E].
Qed.

Lemma re_match_last_greedy (p : regex) (name : option string) (cs : cset) :
  forall s g rest,
    re_match (p ++ [Plus name cs])%list s = Some (g, rest) ->
    span cs rest = O.
Proof.
  induction p as [|[c|name0 cs0] p IH]; intros s g rest H.
  - cbn [app re_match] in H. destruct (span cs s) as [|k] eqn:E.
    + discriminate.
    + cbn [backtrack] in H.
      replace rest with (drop (span cs s) s); [apply span_drop_span|].
      rewrite E. injection H as _ Hr. exact Hr.
  - cbn [app re_match] in H. destruct s as [|c' s]; [discriminate|].
    destruct (Ascii.eqb c c'); [eauto|discriminate].
  - cbn [app re_match] in H. apply backtrack_some in H as (j & _ & H).
    destruct (re_match (p ++ [Plus name cs])%list (drop j s))
      as [[g' r']|] eqn:E;
      [|discriminate].
    injection H as _ Hr. subst r'. eauto.
Qed.

Lemma bind_group_app (name : option string) (w : string) (g h : groupdict) :
  bind_group name w (g ++ h)%list = (bind_group name w g ++ h)%list.
Proof. now destruct name. Qed.

Lemma matches_last_group (p : regex) (u : string) (g : groupdict) :
  matches p u g ->
  forall p' name cs, p = (p' ++ [Plus name cs])%list ->
  exists pre w g',
    u = pre ++ w /\ g = (g' ++ bind_group name w [])%list.
Proof.
  induction 1 as [|c p u g H IH|name0 cs0 p w u g Hw Hcs H IH];
    intros p' name cs E.
  - destruct p'; discriminate.
  - destruct p' as [|i p']; [discriminate|]. injection E as _ E.
    destruct (IH _ _ _ E) as (pre & w & g' & -> & ->).
    exists (String c pre), w, g'. split; reflexivity.
  - destruct p' as [|i p'].
    + injection E as -> -> ->. inversion H; subst.
      exists "", w, []. split; [now rewrite append_nil_r|reflexivity].
    + injection E as _ E.
      destruct (IH _ _ _ E) as (pre & w' & g' & -> & ->).
      exists (w ++ pre), w', (bind_group name0 w g').
      split; [now rewrite append_assoc|apply bind_group_app].
Qed.

(** X4: the byte count is never cut short: a line that a pattern accepts is
    some text, then the byte count, then the text left after the match, and
    that text does not begin with a digit or a dash. *)
Theorem bytes_is_greedy
  (p : regex) (s : string) (g : groupdict) (rest : string) :
  In p patterns ->
  re_match p s = Some (g, rest) ->
  exists pre bytes,
    s = pre ++ bytes ++ rest
    /\ dict_get g "bytes" = Some bytes
    /\ match rest with
       | EmptyString => True
       | String c _ => digit_or "-" c = false
       end.
Proof.
  intros Hp H.
  assert (Hl : p = (removelast p
                    ++ [Plus (Some "bytes") (Pos [ADigit; AChar "-"])])%list)
    by (destruct Hp as [<-|[<-|[<-|[]]]]; reflexivity).
  assert (Hr : span (Pos [ADigit; AChar "-"]) rest = O)
    by (rewrite Hl in H; eapply re_match_last_greedy; eauto).
  pose proof (re_match_groups _ _ _ _ H) as Hg.
  apply re_match_sound in H as (u & -> & H).
  destruct (matches_last_group _ _ _ H _ _ _ Hl) as (pre & w & g' & -> & Eg).
  exists pre, w. split; [now rewrite append_assoc|]. split.
  - cbn [bind_group] in Eg.
    apply (f_equal (fun l => List.last l ("", ""))) in Eg.
    rewrite last_last in Eg.
    destruct Hp as [<-|[<-|[<-|[]]]]; cbv [named] in Hg; cbn in Hg;
      invert_groups; cbn [List.last] in Eg; injection Eg as ->;
      reflexivity.
  - destruct rest as [|c rest]; [exact I|].
    cbn [span] in Hr. unfold digit_or.
    destruct (cset_mem (Pos [ADigit; AChar "-"]) c) eqn:E; [discriminate|].
    cbn in E. now rewrite orb_false_r in E.
Qed.

(** ** Counters of a reachable state *)

Lemma dict_mem_keys {V} (d : dict V) (k : string) :
  dict_mem d k = true <-> In k (keys d).
Proof.
  unfold dict_mem, keys. induction d as [|[k' v] d IH]; simpl.
  - split; [discriminate|tauto].
  - destruct (String.eqb_spec k' k) as [->|Hne].
    + split; auto.
    + rewrite IH. split; [auto|]. intros [E|H]; [congruence|exact H].
Qed.

Lemma keys_dict_add (d : dict Z) (k : string) (n : Z) :
  keys (dict_add d k n)
  = if dict_mem d k then keys d else (keys d ++ [k])%list.
Proof.
  unfold dict_mem, keys. induction d as [|[k' v] d IH]; cbn [dict_add dict_get].
  - reflexivity.
  - destruct (String.eqb k' k); cbn [map fst]; [reflexivity|].
    rewrite IH. now destruct (dict_get d k).
Qed.

Lemma counter_ok_add (d : dict Z) (k : string) (n : Z) :
  0 < n -> counter_ok d -> counter_ok (dict_add d k n).
Proof using Type.
  intros Hn [Hk Hv]. split; [|now apply dict_add_positive].
  rewrite keys_dict_add. destruct (dict_mem d k) eqn:E; [exact Hk|].
  apply NoDup_app; repeat split.
  - exact Hk.
  - constructor; [intros []|constructor].
  - intros x Hx [<-|[]]. apply dict_mem_keys in Hx. congruence.
Qed.

Lemma counters_ok_reachable (t : Z) (r : num) (calls : list (Z * string)) :
  counters_ok (ingest_all (init t r) calls).
Proof using Type.
  apply (ingest_all_invariant counters_ok).
  - intros st n line (H1 & H2 & H3 & H4 & H5).
    destruct (process_line_cases st n line) as [(_ & g & _ & ->)|(_ & ->)].
    + assert (Hone : 0 < 1) by reflexivity.
      unfold counters_ok, _update_statistics.
      cbn [ip_requests ip_errors endpoints status_codes methods].
      split; [now apply counter_ok_add|].
      split; [destruct (is_error_status _); [now apply counter_ok_add|exact H2]|].
      split; [now apply counter_ok_add|].
      split; now apply counter_ok_add.
    + unfold record_failure.
      destruct (List.length (failed_lines st) <? 10)%nat;
        exact (conj H1 (conj H2 (conj H3 (conj H4 H5)))).
  - unfold counters_ok, counter_ok, init.
    cbn [ip_requests ip_errors endpoints status_codes methods keys map].
    repeat split; constructor.
Qed.

(** X5: in every state reached by ingestion from a fresh analyzer, each of
    the five counters has pairwise distinct keys and only positive counts;
    in particular [ip_errors] holds only clients with at least one error. *)
Theorem counters_well_formed (t : Z) (r : num) (calls : list (Z * string)) :
  (NoDup (keys (ip_requests (ingest_all (init t r) calls)))
   /\ Forall (fun kv => 0 < snd kv) (ip_requests (ingest_all (init t r) calls)))
  /\ (NoDup (keys (ip_errors (ingest_all (init t r) calls)))
      /\ Forall (fun kv => 0 < snd kv)
           (ip_errors (ingest_all (init t r) calls)))
  /\ (NoDup (keys (endpoints (ingest_all (init t r) calls)))
      /\ Forall (fun kv => 0 < snd kv)
           (endpoints (ingest_all (init t r) calls)))
  /\ (NoDup (keys (status_codes (ingest_all (init t r) calls)))
      /\ Forall (fun kv => 0 < snd kv)
           (status_codes (ingest_all (init t r) calls)))
  /\ (NoDup (keys (methods (ingest_all (init t r) calls)))
      /\ Forall (fun kv => 0 < snd kv)
           (methods (ingest_all (init t r) calls))).
Proof. exact (counters_ok_reachable t r calls). Qed.

Lemma sums_reachable (t : Z) (r : num) (calls : list (Z * string)) :
  let st := ingest_all (init t r) calls in
  sum (values (ip_requests st)) = total_requests st
  /\ sum (values (endpoints st)) = total_requests st
  /\ sum (values (status_codes st)) = total_requests st
  /\ sum (values (methods st)) = total_requests st.
Proof.
  apply (ingest_all_invariant
           (fun st =>
              sum (values (ip_requests st)) = total_requests st
              /\ sum (values (endpoints st)) = total_requests st
              /\ sum (values (status_codes st)) = total_requests st
              /\ sum (values (methods st)) = total_requests st)).
  - intros st n line (H1 & H2 & H3 & H4).
    destruct (process_line_cases st n line) as [(_ & g & _ & ->)|(_ & ->)].
    + cbn -[sum values dict_add Z.add]. rewrite !sum_values_add.
      repeat split; lia.
    + unfold record_failure.
      destruct (List.length (failed_lines st) <? 10)%nat; repeat split;
        assumption.
  - repeat split.
Qed.

(** X6: after any sequence of ingested lines, starting from a fresh
    analyzer, the counts of the endpoint, status code and method counters
    each add up to [total_requests]. *)
Theorem counters_add_up (t : Z) (r : num) (calls : list (Z * string)) :
  sum (values (endpoints (ingest_all (init t r) calls)))
  = total_requests (ingest_all (init t r) calls)
  /\ sum (values (status_codes (ingest_all (init t r) calls)))
     = total_requests (ingest_all (init t r) calls)
  /\ sum (values (methods (ingest_all (init t r) calls)))
     = total_requests (ingest_all (init t r) calls).
Proof. apply (sums_reachable t r calls). Qed.

Lemma length_le_sum (d : dict Z) :
  Forall (fun kv => 0 < snd kv) d -> len d <= sum (values d).
Proof.
  unfold len, values. induction 1 as [|[k v] d Hv _ IH].
  - reflexivity.
  - cbn [List.length map snd]. rewrite sum_cons, Nat2Z.inj_succ.
    simpl in Hv. lia.
Qed.

Lemma value_le_sum (d : dict Z) (k : string) (v : Z) :
  Forall (fun kv => 0 < snd kv) d -> In (k, v) d -> v <= sum (values d).
Proof.
  unfold values. induction 1 as [|[k' v'] d Hv Hd IH]; [intros []|].
  cbn [map snd]. rewrite sum_cons. simpl in Hv.
  pose proof (length_le_sum d Hd) as Hl. unfold len, values in Hl.
  intros [[= -> ->]|Hin]; [lia|]. apply IH in Hin. lia.
Qed.

Lemma dict_get_in {V} (d : dict V) (k : string) (v : V) :
  dict_get d k = Some v -> In (k, v) d.
Proof.
  induction d as [|[k' v'] d IH]; simpl; [discriminate|].
  destruct (String.eqb_spec k' k) as [->|_].
  - intros [= ->]. now left.
  - intros H. right. auto.
Qed.

(** X7: in the report of a state reached by ingestion, the numbers of
    distinct clients, endpoints and status codes are each at most the total
    number of requests, which is never negative. *)
Theorem distinct_at_most_total (t : Z) (r : num) (calls : list (Z * string)) :
  let s := summary (generate_statistics (ingest_all (init t r) calls)) in
  0 <= sum_total_requests s
  /\ unique_ips s <= sum_total_requests s
  /\ unique_endpoints s <= sum_total_requests s
  /\ unique_status_codes s <= sum_total_requests s.
Proof.
  destruct (counters_ok_reachable t r calls)
    as ((_ & H1) & _ & (_ & H3) & (_ & H4) & _).
  destruct (sums_reachable t r calls) as (E1 & E2 & E3 & _).
  cbn -[ingest_all sum values len].
  apply length_le_sum in H1, H3, H4.
  assert (0 <= len (ip_requests (ingest_all (init t r) calls)))
    by (unfold len; lia).
  repeat split; lia.
Qed.

Lemma total_requests_step (st : LogAnalyzer) (line_num : Z) (line : string) :
  total_requests (process_line st line_num line)
  = total_requests st + (if parses line then 1 else 0).
Proof.
  destruct (process_line_cases st line_num line)
    as [(-> & g & _ & ->)|(-> & ->)]; [reflexivity|].
  unfold record_failure.
  destruct (List.length (failed_lines st) <? 10)%nat; simpl; lia.
Qed.

Lemma total_requests_ingest (calls : list (Z * string)) :
  forall st,
    total_requests (ingest_all st calls)
    = total_requests st + len (filter parses (map snd calls)).
Proof.
  unfold ingest_all, len.
  induction calls as [|[n line] calls IH]; intros st; cbn [fold_left map snd].
  - simpl. lia.
  - rewrite IH, total_requests_step. cbn [fst snd filter].
    destruct (parses line); cbn [List.length]; lia.
Qed.

(** X8: [total_requests] counts exactly the lines that parse: after
    [process_log_file] on a fresh analyzer it is the number of lines with a
    match, and with the number of lines without one it adds up to the number
    of lines read. *)
Theorem total_counts_parsed_lines (t : Z) (r : num) (lines : list string) :
  total_requests (process_log_file (init t r) lines)
  = len (filter parses lines)
  /\ total_requests (process_log_file (init t r) lines)
     + len (filter (fun line => negb (parses line)) lines)
     = len lines.
Proof.
  unfold process_log_file.
  rewrite total_requests_ingest, enumerate_lines. cbn [init total_requests].
  split; [lia|]. unfold len.
  induction lines as [|x lines IH]; [reflexivity|].
  cbn [filter]. destruct (parses x); cbn [negb List.length]; lia.
Qed.

(** ** Status code summary *)

Lemma count_prefix_add (d : dict Z) (k : string) (n : Z) (c : ascii) :
  count_prefix (dict_add d k n) c
  = count_prefix d c + (if startswith k c then n else 0).
Proof.
  unfold count_prefix. induction d as [|[k' v] d IH]; cbn [dict_add].
  - cbn [filter fst]. destruct (startswith k c); cbn [map snd].
    + unfold sum. simpl. lia.
    + unfold sum. simpl. lia.
  - destruct (String.eqb_spec k' k) as [->|Hne]; cbn [filter fst].
    + destruct (startswith k c); cbn [map snd]; rewrite ?sum_cons; lia.
    + destruct (startswith k' c); cbn [map snd]; rewrite ?sum_cons, IH; lia.
Qed.

Lemma startswith_exclusive (s : string) (c1 c2 : ascii) :
  c1 <> c2 -> startswith s c1 = true -> startswith s c2 = false.
Proof.
  destruct s as [|a s]; simpl; [discriminate|]. intros Hne H.
  apply Ascii.eqb_eq in H. subst a. now apply Ascii.eqb_neq.
Qed.

Lemma buckets_reachable (t : Z) (r : num) (calls : list (Z * string)) :
  let st := ingest_all (init t r) calls in
  sum (values (ip_errors st))
  = count_prefix (status_codes st) "4" + count_prefix (status_codes st) "5"
  /\ count_prefix (status_codes st) "2" + count_prefix (status_codes st) "3"
     + count_prefix (status_codes st) "4" + count_prefix (status_codes st) "5"
     <= total_requests st.
Proof.
  apply (ingest_all_invariant
           (fun st =>
              sum (values (ip_errors st))
              = count_prefix (status_codes st) "4"
                + count_prefix (status_codes st) "5"
              /\ count_prefix (status_codes st) "2"
                 + count_prefix (status_codes st) "3"
                 + count_prefix (status_codes st) "4"
                 + count_prefix (status_codes st) "5"
                 <= total_requests st)).
  - intros st n line (H1 & H2).
    destruct (process_line_cases st n line) as [(_ & g & _ & ->)|(_ & ->)].
    + cbn -[sum values dict_add Z.add count_prefix].
      set (status := dict_get_default g "status" "000").
      rewrite !count_prefix_add. unfold is_error_status.
      destruct (startswith status "2") eqn:E2;
        destruct (startswith status "3") eqn:E3;
        destruct (startswith status "4") eqn:E4;
        destruct (startswith status "5") eqn:E5;
        cbn [orb]; rewrite ?sum_values_add;
        try (split; lia);
        exfalso;
        repeat match goal with
          | H : startswith status ?a = true,
            H' : startswith status ?b = true |- _ =>
              apply (startswith_exclusive status a b) in H;
              [congruence|discriminate]
          end.
    + unfold record_failure.
      destruct (List.length (failed_lines st) <? 10)%nat; split; assumption.
  - split; reflexivity.
Qed.

(** X9: in the report of a state reached by ingestion, the 4xx and 5xx
    totals of the status summary add up to the sum of the per-client error
    counts, and the four totals together are at most the total number of
    requests. *)
Theorem status_summary_totals (t : Z) (r : num) (calls : list (Z * string)) :
  let st := ingest_all (init t r) calls in
  let s := status_summary (generate_statistics st) in
  client_error_4xx s + server_error_5xx s = sum (values (ip_errors st))
  /\ success_2xx s + redirect_3xx s + client_error_4xx s + server_error_5xx s
     <= sum_total_requests (summary (generate_statistics st)).
Proof.
  destruct (buckets_reachable t r calls) as [H1 H2].
  cbn -[ingest_all sum values count_prefix]. split; [now rewrite H1|exact H2].
Qed.

(** ** Suspicious clients of a reachable state *)

Lemma suspicious_of_items (st : LogAnalyzer) :
  exists test,
    identify_suspicious_ips st
    = sort_desc suspect_errors
        (map (fun item =>
                (fst item, snd item,
                 dict_get_default (ip_errors st) (fst item) 0,
                 error_rate (dict_get_default (ip_errors st) (fst item) 0)
                   (snd item)))
           (filter test (ip_requests st)))
    /\ forall item,
         test item = true ->
         dict_get_default (ip_errors st) (fst item) 0 >= error_threshold st.
Proof.
  exists (fun item =>
            (dict_get_default (ip_errors st) (fst item) 0
             >=? error_threshold st)
            && num_ge
                 (error_rate (dict_get_default (ip_errors st) (fst item) 0)
                    (snd item))
                 (error_rate_threshold st)).
  split.
  - unfold identify_suspicious_ips.
    rewrite (collect_filter_map
               (fun item =>
                  (dict_get_default (ip_errors st) (fst item) 0
                   >=? error_threshold st)
                  && num_ge
                       (error_rate
                          (dict_get_default (ip_errors st) (fst item) 0)
                          (snd item))
                       (error_rate_threshold st))
               (fun item =>
                  (fst item, snd item,
                   dict_get_default (ip_errors st) (fst item) 0,
                   error_rate (dict_get_default (ip_errors st) (fst item) 0)
                     (snd item)))).
    reflexivity.
  - intros item H. apply andb_true_iff in H as [H _].
    apply Z.geb_le in H. lia.
Qed.

Lemma filter_none {A} (test : A -> bool) (l : list A) :
  (forall x, In x l -> test x = false) -> filter test l = [].
Proof.
  induction l as [|x l IH]; intros H; simpl; [reflexivity|].
  rewrite (H x (or_introl eq_refl)). apply IH. intros y Hy. apply H. now right.
Qed.

Lemma errors_covered_reachable
  (t : Z) (r : num) (calls : list (Z * string)) (c : string) (e : Z) :
  dict_get (ip_errors (ingest_all (init t r) calls)) c = Some e ->
  exists n,
    dict_get (ip_requests (ingest_all (init t r) calls)) c = Some n /\ e <= n.
Proof.
  apply (ingest_all_invariant errors_covered).
  - apply errors_covered_step.
  - split; simpl; discriminate.
Qed.

(** X10: a log with fewer requests than the error threshold flags no one:
    in a state reached by ingestion whose [total_requests] is below
    [error_threshold], [identify_suspicious_ips] returns the empty list. *)
Theorem few_requests_no_suspects (t : Z) (r : num) (calls : list (Z * string)) :
  total_requests (ingest_all (init t r) calls)
  < error_threshold (ingest_all (init t r) calls) ->
  identify_suspicious_ips (ingest_all (init t r) calls) = [].
Proof.
  set (st := ingest_all (init t r) calls). intros Hlt.
  destruct (suspicious_of_items st) as (test & -> & Htest).
  rewrite filter_none; [reflexivity|].
  intros [ip total] Hin.
  destruct (test (ip, total)) eqn:E; [|reflexivity]. exfalso.
  apply Htest in E. cbn [fst] in E.
  destruct (counters_ok_reachable t r calls) as ((_ & Hpos) & _).
  destruct (sums_reachable t r calls) as (Esum & _).
  fold st in Hpos, Esum.
  pose proof (length_le_sum _ Hpos) as Hlen. unfold len in Hlen.
  unfold dict_get_default in E.
  destruct (dict_get (ip_errors st) ip) as [e|] eqn:Ee; [|lia].
  apply (errors_covered_reachable t r calls) in Ee as (n & En & Hle).
  apply dict_get_in, (value_le_sum _ _ _ Hpos) in En. lia.
Qed.

Lemma NoDup_map_filter {A B} (f : A -> B) (test : A -> bool) (l : list A) :
  NoDup (map f l) -> NoDup (map f (filter test l)).
Proof.
  induction l as [|x l IH]; simpl; [auto|].
  intros H. apply NoDup_cons_iff in H as [Hx Hl].
  destruct (test x); simpl; [|auto].
  constructor; [|auto].
  intros Hin. apply Hx. apply in_map_iff in Hin as (y & E & Hy).
  apply filter_In in Hy as [Hy _]. apply in_map_iff. eauto.
Qed.

(** X11: in the report of a state reached by ingestion, no client is listed
    twice among the suspicious clients, the suspicious count of the summary
    is the length of that list, and it is at most the number of distinct
    clients. *)
Theorem suspects_listed_once (t : Z) (r : num) (calls : list (Z * string)) :
  let report := generate_statistics (ingest_all (init t r) calls) in
  NoDup (map suspect_ip (suspicious_ips report))
  /\ suspicious_ips_count (summary report) = len (suspicious_ips report)
  /\ suspicious_ips_count (summary report) <= unique_ips (summary report).
Proof.
  set (st := ingest_all (init t r) calls).
  cbn -[ingest_all identify_suspicious_ips].
  fold st.
  destruct (suspicious_of_items st) as (test & E & _).
  destruct (counters_ok_reachable t r calls) as ((Hk & _) & _). fold st in Hk.
  split; [|split].
  - rewrite map_map.
    rewrite (map_ext _ suspect_ip) by (now intros [[[ip total] errors] rate]).
    rewrite E.
    eapply Permutation_NoDup;
      [apply Permutation_map; symmetry; apply sort_desc_perm|].
    rewrite map_map. cbn [suspect_ip fst].
    apply (NoDup_map_filter fst). exact Hk.
  - unfold len. now rewrite length_map.
  - unfold len. rewrite E, (Permutation_length (sort_desc_perm _ _)),
      length_map.
    apply inj_le, filter_length_le.
Qed.

(** ** Composition of runs *)

Lemma parsing_line_ignores_number
  (st : LogAnalyzer) (n m : Z) (line : string) :
  parses line = true -> process_line st n line = process_line st m line.
Proof.
  intros Hp.
  destruct (process_line_cases st n line) as [(_ & g & Hg & ->)|(Hf & _)];
    [|congruence].
  destruct (process_line_cases st m line) as [(_ & g' & Hg' & ->)|(Hf & _)];
    [|congruence].
  rewrite Hg in Hg'. now injection Hg' as <-.
Qed.

Lemma unparsable_lines_counters (lines : list string) :
  forall st n m,
    counters (ingest_all st (enumerate n lines))
    = counters (ingest_all st (enumerate m (filter parses lines))).
Proof.
  induction lines as [|x lines IH]; intros st n m; [reflexivity|].
  cbn [filter enumerate]. destruct (parses x) eqn:Hp.
  - cbn [enumerate]. unfold ingest_all in *. cbn [fold_left fst snd].
    rewrite (parsing_line_ignores_number st n m x Hp). apply IH.
  - unfold ingest_all in *. cbn [fold_left fst snd].
    rewrite <- (IH st (n + 1) m).
    apply (ingest_all_counters (enumerate (n + 1) lines)
             (enumerate (n + 1) lines)); [reflexivity|].
    destruct (process_line_cases st n x) as [(Ht & _)|(_ & ->)];
      [congruence|apply record_failure_counters].
Qed.

(** X12: the report does not depend on how the lines are split into files
    nor on the lines without a match: processing two files one after the
    other gives the report of processing their concatenation, and lines
    that do not parse can be dropped without changing the report. *)
Theorem report_of_runs (st : LogAnalyzer) (lines1 lines2 : list string) :
  generate_statistics (process_log_file (process_log_file st lines1) lines2)
  = generate_statistics (process_log_file st (lines1 ++ lines2))
  /\ generate_statistics (process_log_file st lines1)
     = generate_statistics (process_log_file st (filter parses lines1)).
Proof.
  split; apply generate_statistics_counters.
  - symmetry. apply process_log_file_app.
  - apply unparsable_lines_counters.
Qed.

(** ** Ranked lists *)

Lemma StronglySorted_app_inv {A} (R : A -> A -> Prop) (l1 l2 : list A) :
  StronglySorted R (l1 ++ l2) ->
  StronglySorted R l1 /\ StronglySorted R l2
  /\ forall x y, In x l1 -> In y l2 -> R x y.
Proof.
  induction l1 as [|a l1 IH]; cbn [app]; intros H.
  - repeat split; [constructor|exact H|intros x y []].
  - apply StronglySorted_inv in H as [Hs Ha].
    destruct (IH Hs) as (H1 & H2 & H12).
    apply Forall_app in Ha as [Ha1 Ha2].
    repeat split; [now constructor|exact H2|].
    intros x y [<-|Hx] Hy; [|now apply H12].
    rewrite Forall_forall in Ha2. now apply Ha2.
Qed.

Lemma most_common_n_spec (n : nat) (d : dict Z) :
  List.length (most_common_n n d) = Nat.min n (List.length d)
  /\ StronglySorted (fun a b => snd a >= snd b) (most_common_n n d)
  /\ exists others,
       Permutation (most_common_n n d ++ others) d
       /\ forall x y, In x (most_common_n n d) -> In y others -> snd y <= snd x.
Proof.
  unfold most_common_n.
  pose proof (sort_desc_sorted snd d) as Hs.
  pose proof (sort_desc_perm snd d) as Hp.
  rewrite <- (firstn_skipn n (sort_desc snd d)) in Hs.
  apply StronglySorted_app_inv in Hs as (H1 & _ & H12).
  split; [|split; [exact H1|]].
  - now rewrite length_firstn, (Permutation_length Hp).
  - exists (skipn n (sort_desc snd d)). split.
    + now rewrite firstn_skipn.
    + intros x y Hx Hy. specialize (H12 x y Hx Hy). simpl in H12. lia.
Qed.

(** X13: the top endpoints and the top clients of the report are at most 20
    entries of the counter (all of them when there are at most 20), in
    descending order of count, and every entry left out has a count that is
    at most the count of every entry listed. *)
Theorem top_lists_ranked (st : LogAnalyzer) :
  let report := generate_statistics st in
  (List.length (top_endpoints report)
   = Nat.min 20 (List.length (endpoints st))
   /\ StronglySorted (fun a b => snd a >= snd b) (top_endpoints report)
   /\ exists others,
        Permutation (top_endpoints report ++ others) (endpoints st)
        /\ forall x y,
             In x (top_endpoints report) -> In y others -> snd y <= snd x)
  /\ (List.length (top_ips report)
      = Nat.min 20 (List.length (ip_requests st))
      /\ StronglySorted (fun a b => snd a >= snd b) (top_ips report)
      /\ exists others,
           Permutation (top_ips report ++ others) (ip_requests st)
           /\ forall x y,
                In x (top_ips report) -> In y others -> snd y <= snd x).
Proof.
  cbn -[most_common_n]. split; apply most_common_n_spec.
Qed.

(** ** Breakdowns *)

Lemma dict_set_absent {V} (d : dict V) (k : string) (v : V) :
  ~ In k (keys d) -> dict_set d k v = (d ++ [(k, v)])%list.
Proof.
  unfold keys. induction d as [|[k' v'] d IH]; simpl; [reflexivity|].
  intros H. destruct (String.eqb_spec k' k) as [->|_]; [tauto|].
  rewrite IH; [reflexivity|tauto].
Qed.

Lemma dict_of_pairs_distinct {V} (l : list (string * V)) :
  forall acc,
    NoDup (keys (acc ++ l)%list) ->
    fold_left (fun d kv => dict_set d (fst kv) (snd kv)) l acc
    = (acc ++ l)%list.
Proof.
  induction l as [|[k v] l IH]; intros acc H; cbn [fold_left fst snd].
  - now rewrite app_nil_r.
  - replace (acc ++ (k, v) :: l)%list with ((acc ++ [(k, v)]) ++ l)%list in *
      by (now rewrite <- app_assoc).
    rewrite dict_set_absent.
    + now apply IH.
    + unfold keys in *. rewrite !map_app in H.
      apply NoDup_app_remove_r in H. cbn [map fst] in H.
      apply NoDup_remove_2 in H. now rewrite app_nil_r in H.
Qed.

Lemma in_dict_get {V} (d : dict V) (k : string) (v : V) :
  NoDup (keys d) -> In (k, v) d -> dict_get d k = Some v.
Proof.
  unfold keys. induction d as [|[k' v'] d IH]; simpl; [tauto|].
  intros H Hin. apply NoDup_cons_iff in H as [Hk Hd].
  destruct (String.eqb_spec k' k) as [->|Hne].
  - destruct Hin as [[= ->]|Hin]; [reflexivity|].
    exfalso. apply Hk. apply in_map_iff. now exists (k, v).
  - destruct Hin as [[= -> ->]|Hin]; [congruence|]. now apply IH.
Qed.

Lemma dict_get_perm {V} (d d' : dict V) (k : string) :
  NoDup (keys d) -> Permutation d d' -> dict_get d' k = dict_get d k.
Proof.
  intros Hd Hp.
  assert (Hd' : NoDup (keys d'))
    by (eapply Permutation_NoDup; [apply Permutation_map; exact Hp|exact Hd]).
  destruct (dict_get d k) as [v|] eqn:E.
  - apply in_dict_get; [exact Hd'|].
    eapply Permutation_in; [exact Hp|]. now apply dict_get_in.
  - destruct (dict_get d' k) as [v|] eqn:E'; [|reflexivity].
    apply dict_get_in in E'.
    apply (Permutation_in _ (Permutation_sym Hp)) in E'.
    apply (in_dict_get _ _ _ Hd) in E'. congruence.
Qed.

Lemma breakdown_faithful (d : dict Z) :
  NoDup (keys d) ->
  dict_of_pairs (most_common d) = sort_desc snd d
  /\ forall k, dict_get (dict_of_pairs (most_common d)) k = dict_get d k.
Proof.
  intros Hd.
  assert (E : dict_of_pairs (most_common d) = sort_desc snd d).
  { unfold dict_of_pairs, most_common. rewrite dict_of_pairs_distinct.
    - reflexivity.
    - cbn [app]. eapply Permutation_NoDup; [|exact Hd].
      apply Permutation_map. symmetry. apply sort_desc_perm. }
  split; [exact E|]. intros k. rewrite E.
  apply dict_get_perm; [exact Hd|]. symmetry. apply sort_desc_perm.
Qed.

(** X14: in the report of a state reached by ingestion, the method and
    status code breakdowns are the counters in descending order of count,
    equal counts in insertion order: building a dictionary from the ranked
    pairs drops nothing, and a key has the same count in the breakdown as in
    the counter. *)
Theorem breakdowns_keep_counts (t : Z) (r : num) (calls : list (Z * string)) :
  let st := ingest_all (init t r) calls in
  let report := generate_statistics st in
  http_methods report = sort_desc snd (methods st)
  /\ status_breakdown report = sort_desc snd (status_codes st)
  /\ forall k,
       dict_get (http_methods report) k = dict_get (methods st) k
       /\ dict_get (status_breakdown report) k = dict_get (status_codes st) k.
Proof.
  destruct (counters_ok_reachable t r calls)
    as (_ & _ & _ & (H4 & _) & (H5 & _)).
  cbn -[ingest_all most_common dict_of_pairs sort_desc].
  destruct (breakdown_faithful _ H4) as [E4 G4].
  destruct (breakdown_faithful _ H5) as [E5 G5].
  repeat split; auto.
Qed.

(** ** Console report *)

Lemma length_take (n : nat) (s : string) :
  String.length (take n s) = Nat.min n (String.length s).
Proof.
  revert s. induction n as [|n IH]; intros [|c s]; simpl; auto.
Qed.

Lemma length_append (a b : string) :
  String.length (a ++ b) = (String.length a + String.length b)%nat.
Proof. induction a; simpl; auto. Qed.

Lemma take_append_take (n : nat) (s t : string) :
  (n <= String.length s)%nat -> take n (take n s ++ t) = take n s.
Proof.
  revert s. induction n as [|n IH]; intros [|c s] H; simpl in *;
    try reflexivity; try lia.
  f_equal. apply IH. lia.
Qed.

(** X15: the endpoint column of the console report never exceeds 50
    characters: an endpoint of at most 50 characters is shown as it is, a
    longer one as exactly 50 characters that start with its first 47. *)
Theorem display_endpoint_fits (endpoint : string) :
  (String.length (display_endpoint endpoint) <= 50)%nat
  /\ ((String.length endpoint <= 50)%nat ->
      display_endpoint endpoint = endpoint)
  /\ ((50 < String.length endpoint)%nat ->
      String.length (display_endpoint endpoint) = 50%nat
      /\ take 47 (display_endpoint endpoint) = take 47 endpoint).
Proof.
  unfold display_endpoint.
  destruct (Nat.ltb_spec 50 (String.length endpoint)) as [Hlt|Hle].
  - assert (E : String.length (take 47 endpoint ++ "...") = 50%nat)
      by (rewrite length_append, length_take;
          change (String.length "...") with 3%nat; lia).
    split; [lia|]. split; [lia|]. intros _. split; [exact E|].
    apply take_append_take. lia.
  - split; [exact Hle|]. split; [reflexivity|lia].
Qed.

Lemma empty_counter (d : dict Z) :
  Forall (fun kv => 0 < snd kv) d -> sum (values d) = 0 -> d = [].
Proof.
  intros Hpos Hs. apply length_le_sum in Hpos. unfold len in Hpos.
  destruct d; [reflexivity|].
  cbn [List.length] in Hpos. rewrite Nat2Z.inj_succ in Hpos. lia.
Qed.

(** X16: the console report of a state reached by ingestion never divides
    by zero: every percentage it computes has a divisor that is not zero,
    because with no request there is no entry to compute one for. *)
Theorem display_never_divides_by_zero
  (t : Z) (r : num) (calls : list (Z * string)) :
  Forall (fun operands => snd operands <> 0)
    (display_divisions (generate_statistics (ingest_all (init t r) calls))).
Proof.
  set (st := ingest_all (init t r) calls).
  destruct (Z.eq_dec (total_requests st) 0) as [E0|Hne].
  - destruct (counters_ok_reachable t r calls)
      as ((_ & H1) & _ & (_ & H3) & (_ & H4) & (_ & H5)).
    destruct (sums_reachable t r calls) as (E1 & E3 & E4 & E5).
    fold st in H1, H3, H4, H5, E1, E3, E4, E5.
    rewrite E0 in E1, E3, E4, E5.
    apply empty_counter in E1, E3, E4, E5; try assumption.
    unfold display_divisions, generate_statistics.
    cbn [summary sum_total_requests http_methods status_summary
         status_breakdown top_endpoints top_ips success_2xx redirect_3xx
         client_error_4xx server_error_5xx].
    rewrite E1, E3, E4, E5. cbn. constructor.
  - unfold display_divisions.
    cbn [generate_statistics summary sum_total_requests]. fold st.
    rewrite !Forall_app. repeat split;
      apply Forall_map, Forall_forall; intros x _; exact Hne.
Qed.

(** X17: [_get_status_name] gives a name only to a code of three digits
    that starts with 2, 3, 4 or 5, so every status the console report names
    is counted in one of the four totals of the status summary; any other
    code gets the empty text. *)
Theorem named_status_is_summarised (code : string) :
  _get_status_name code <> "" ->
  String.length code = 3%nat
  /\ all_chars is_digit code = true
  /\ (startswith code "2" || startswith code "3"
      || startswith code "4" || startswith code "5") = true.
Proof.
  unfold _get_status_name, dict_get_default, status_names.
  cbn [dict_get].
  repeat match goal with
    | |- context [String.eqb ?k code] =>
        destruct (String.eqb_spec k code) as [<-|?];
        [intros _; repeat split; reflexivity|]
    end.
  intros H. now contradiction H.
Qed.

End Analyzer.

Arguments init {num} _ _.
Arguments process_line {num} _ _ _.
Arguments ingest_all {num} _ _.
Arguments process_log_file {num} _ _.
Arguments counters {num} _.
Arguments identify_suspicious_ips {num} _ _ _ _.
Arguments candidates {num} _ _ _.
Arguments suspect_errors {num} _.
Arguments error_threshold {num} _.
Arguments error_rate_threshold {num} _.
Arguments total_requests {num} _.
Arguments ip_requests {num} _.
Arguments ip_errors {num} _.
Arguments status_codes {num} _.
Arguments failed_lines {num} _.

(** ** The analyzer over the rationals, on concrete inputs *)

Notation "'fresh_state'" := (init 10 (1 # 2)%Q).
Notation "'burst_state'" :=
  (process_log_file (init 10 (1 # 2)%Q) burst_lines).
Notation "'suspicious_ips_Q'" :=
  (identify_suspicious_ips inject_Z Q_div Q_ge).

Example burst_is_suspicious :
  suspicious_ips_Q burst_state = [("10.0.0.9", 12, 11, (11 # 12)%Q)].
Proof. vm_compute. reflexivity. Qed.

Example burst_counts :
  ip_requests burst_state = [("10.0.0.9", 12)]
  /\ ip_errors burst_state = [("10.0.0.9", 11)]
  /\ total_requests burst_state = 12.
Proof. vm_compute. repeat split. Qed.

Lemma suspicious_clients_spec_witness :
  (forall ip total, In (ip, total) (ip_requests burst_state) -> 0 < total)
  /\ (forall ip total errors rate,
        In (ip, total, errors, rate) (suspicious_ips_Q burst_state) <->
        In (ip, total) (ip_requests burst_state)
        /\ errors = dict_get_default (ip_errors burst_state) ip 0
        /\ rate = Q_div errors total
        /\ errors >= error_threshold burst_state
        /\ Q_ge rate (error_rate_threshold burst_state) = true)
  /\ Permutation (suspicious_ips_Q burst_state)
       (candidates Q_div Q_ge burst_state)
  /\ StronglySorted (fun a b => suspect_errors a >= suspect_errors b)
       (suspicious_ips_Q burst_state)
  /\ (forall k,
        filter (fun x => suspect_errors x =? k) (suspicious_ips_Q burst_state)
        = filter (fun x => suspect_errors x =? k)
            (candidates Q_div Q_ge burst_state))
  /\ (forall ip total,
        In (ip, total) (ip_requests burst_state) ->
        dict_get_default (ip_errors burst_state) ip 0
        < error_threshold burst_state
        \/ Q_ge (Q_div (dict_get_default (ip_errors burst_state) ip 0) total)
             (error_rate_threshold burst_state) = false ->
        forall errors rate,
          ~ In (ip, total, errors, rate) (suspicious_ips_Q burst_state)).
Proof.
  assert (H : forall ip total,
            In (ip, total) (ip_requests burst_state) -> 0 < total).
  { assert (E : ip_requests burst_state = [("10.0.0.9", 12)])
      by (vm_compute; reflexivity).
    rewrite E. intros ip total [[= <- <-]|[]]. reflexivity. }
  split; [exact H|].
  exact (suspicious_clients_spec Q inject_Z Q_div Q_ge burst_state H).
Defined.

Lemma errors_within_requests_witness :
  dict_get (ip_errors (ingest_all fresh_state [(1, sample_line)])) "10.0.0.1"
  = Some 1
  /\ exists n,
       dict_get (ip_requests (ingest_all fresh_state [(1, sample_line)]))
         "10.0.0.1" = Some n
       /\ 1 <= n.
Proof.
  assert (H : dict_get
                (ip_errors (ingest_all fresh_state [(1, sample_line)]))
                "10.0.0.1" = Some 1) by (vm_compute; reflexivity).
  split; [exact H|].
  exact (errors_within_requests Q 10 (1 # 2)%Q [(1, sample_line)]
           "10.0.0.1" 1 H).
Defined.

Lemma blank_line_recorded_witness :
  strip blank_line = ""
  /\ parse_line blank_line = None
  /\ counters (process_line fresh_state 7 blank_line) = counters fresh_state
  /\ failed_lines (process_line fresh_state 7 blank_line)
     = if (List.length (failed_lines fresh_state) <? 10)%nat
       then (failed_lines fresh_state ++ [(7, "")])%list
       else failed_lines fresh_state.
Proof.
  assert (H : strip blank_line = "") by reflexivity.
  split; [exact H|].
  exact (blank_line_recorded Q fresh_state 7 blank_line H).
Defined.

(** C4, as stated, fails: a blank line is appended to the sample of a fresh
    analyzer. *)
Lemma blank_line_counterexample :
  strip blank_line = ""
  /\ failed_lines fresh_state = []
  /\ failed_lines (process_line fresh_state 7 blank_line) = [(7, "")].
Proof. vm_compute. repeat split. Qed.

Lemma extracted_fields_shape_witness :
  In APACHE_COMBINED patterns
  /\ re_match APACHE_COMBINED sample_line
     = Some ([("ip", "10.0.0.1"); ("timestamp", "10/Oct/2023:13:55:36 -0700");
              ("method", "GET"); ("endpoint", "/index.html");
              ("status", "404"); ("bytes", "1234")], "")
  /\ exists ip method endpoint status bytes,
       dict_get [("ip", "10.0.0.1");
                 ("timestamp", "10/Oct/2023:13:55:36 -0700");
                 ("method", "GET"); ("endpoint", "/index.html");
                 ("status", "404"); ("bytes", "1234")] "ip" = Some ip
       /\ dict_get [("ip", "10.0.0.1");
                    ("timestamp", "10/Oct/2023:13:55:36 -0700");
                    ("method", "GET"); ("endpoint", "/index.html");
                    ("status", "404"); ("bytes", "1234")] "method"
          = Some method
       /\ dict_get [("ip", "10.0.0.1");
                    ("timestamp", "10/Oct/2023:13:55:36 -0700");
                    ("method", "GET"); ("endpoint", "/index.html");
                    ("status", "404"); ("bytes", "1234")] "endpoint"
          = Some endpoint
       /\ dict_get [("ip", "10.0.0.1");
                    ("timestamp", "10/Oct/2023:13:55:36 -0700");
                    ("method", "GET"); ("endpoint", "/index.html");
                    ("status", "404"); ("bytes", "1234")] "status"
          = Some status
       /\ dict_get [("ip", "10.0.0.1");
                    ("timestamp", "10/Oct/2023:13:55:36 -0700");
                    ("method", "GET"); ("endpoint", "/index.html");
                    ("status", "404"); ("bytes", "1234")] "bytes"
          = Some bytes
       /\ run_of (digit_or ".") ip
       /\ run_of is_word method
       /\ run_of not_space endpoint
       /\ run_of is_digit status
       /\ run_of (digit_or "-") bytes.
Proof.
  assert (Hp : In APACHE_COMBINED patterns) by (left; reflexivity).
  assert (Hm : re_match APACHE_COMBINED sample_line
               = Some ([("ip", "10.0.0.1");
                        ("timestamp", "10/Oct/2023:13:55:36 -0700");
                        ("method", "GET"); ("endpoint", "/index.html");
                        ("status", "404"); ("bytes", "1234")], ""))
    by (vm_compute; reflexivity).
  split; [exact Hp|]. split; [exact Hm|].
  exact (extracted_fields_shape APACHE_COMBINED sample_line _ _ Hp Hm).
Defined.

(** C8, as stated, fails: the first pattern accepts a line whose byte count
    mixes digits and a dash. *)
Lemma bytes_mixture_counterexample :
  parse_line dashes_line
  = Some [("ip", "1.2.3.4"); ("timestamp", "t"); ("method", "GET");
          ("endpoint", "/"); ("status", "200"); ("bytes", "1-2")]
  /\ re_match APACHE_COMBINED dashes_line
     = Some ([("ip", "1.2.3.4"); ("timestamp", "t"); ("method", "GET");
              ("endpoint", "/"); ("status", "200"); ("bytes", "1-2")], "")
  /\ digits_or_dash "1-2" = false.
Proof. vm_compute. repeat split. Qed.

(** C9, as stated, fails: the first pattern accepts a line that goes on after
    the byte count, although the whole line does not have the shape of the
    pattern. *)
Lemma trailing_fields_counterexample :
  re_match APACHE_COMBINED trailing_line
  = Some ([("ip", "10.0.0.1"); ("timestamp", "10/Oct/2023:13:55:36 -0700");
           ("method", "GET"); ("endpoint", "/index.html");
           ("status", "404"); ("bytes", "1234")],
          " " ++ quoted "-" ++ " " ++ quoted "curl/8.0")
  /\ parse_line trailing_line
     = Some [("ip", "10.0.0.1"); ("timestamp", "10/Oct/2023:13:55:36 -0700");
             ("method", "GET"); ("endpoint", "/index.html");
             ("status", "404"); ("bytes", "1234")]
  /\ ~ exists g, matches APACHE_COMBINED trailing_line g.
Proof.
  split; [vm_compute; reflexivity|]. split; [vm_compute; reflexivity|].
  intros [g H].
  destruct (matches_last _ _ _ H (removelast APACHE_COMBINED)
              (Some "bytes") (Pos [ADigit; AChar "-"]) eq_refl)
    as (c & Hc & Hm).
  vm_compute in Hc. injection Hc as <-. vm_compute in Hm. discriminate.
Qed.

Lemma parsed_fields_witness :
  parse_line sample_line
  = Some [("ip", "10.0.0.1"); ("timestamp", "10/Oct/2023:13:55:36 -0700");
          ("method", "GET"); ("endpoint", "/index.html");
          ("status", "404"); ("bytes", "1234")]
  /\ ((accepts APACHE_COMBINED (strip sample_line)
       /\ keys [("ip", "10.0.0.1");
                ("timestamp", "10/Oct/2023:13:55:36 -0700");
                ("method", "GET"); ("endpoint", "/index.html");
                ("status", "404"); ("bytes", "1234")] = six_fields)
      \/ (re_match APACHE_COMBINED (strip sample_line) = None
          /\ accepts EXTENDED_FORMAT (strip sample_line)
          /\ keys [("ip", "10.0.0.1");
                   ("timestamp", "10/Oct/2023:13:55:36 -0700");
                   ("method", "GET"); ("endpoint", "/index.html");
                   ("status", "404"); ("bytes", "1234")] = seven_fields)).
Proof.
  assert (H : parse_line sample_line
              = Some [("ip", "10.0.0.1");
                      ("timestamp", "10/Oct/2023:13:55:36 -0700");
                      ("method", "GET"); ("endpoint", "/index.html");
                      ("status", "404"); ("bytes", "1234")])
    by (vm_compute; reflexivity).
  split; [exact H|].
  exact (parsed_fields sample_line _ H).
Defined.

(** C10, as stated, fails: a line with an authenticated user is parsed by the
    extended pattern into a record of seven fields. *)
Lemma user_field_counterexample :
  parse_line user_line
  = Some [("ip", "1.2.3.4"); ("user", "frank"); ("timestamp", "t");
          ("method", "GET"); ("endpoint", "/"); ("status", "200");
          ("bytes", "5")]
  /\ re_match APACHE_COMBINED user_line = None
  /\ keys [("ip", "1.2.3.4"); ("user", "frank"); ("timestamp", "t");
           ("method", "GET"); ("endpoint", "/"); ("status", "200");
           ("bytes", "5")] <> six_fields.
Proof.
  split; [vm_compute; reflexivity|]. split; [vm_compute; reflexivity|].
  discriminate.
Qed.

(** ** Further concrete inputs *)

Notation "'sample_record'" :=
  [("ip", "10.0.0.1"); ("timestamp", "10/Oct/2023:13:55:36 -0700");
   ("method", "GET"); ("endpoint", "/index.html");
   ("status", "404"); ("bytes", "1234")].

Notation "'user_record'" :=
  [("ip", "1.2.3.4"); ("user", "frank"); ("timestamp", "t");
   ("method", "GET"); ("endpoint", "/"); ("status", "200"); ("bytes", "5")].

Notation "'newline'" := (String "010" EmptyString).

Lemma padding_ignored_witness :
  is_blank blank_line = true
  /\ is_blank newline = true
  /\ parse_line (blank_line ++ sample_line ++ newline)
     = parse_line sample_line
  /\ process_line fresh_state 3 (blank_line ++ sample_line ++ newline)
     = process_line fresh_state 3 sample_line.
Proof.
  assert (H1 : is_blank blank_line = true) by reflexivity.
  assert (H2 : is_blank newline = true) by reflexivity.
  split; [exact H1|]. split; [exact H2|].
  exact (padding_ignored Q fresh_state 3 blank_line newline sample_line H1 H2).
Defined.

Lemma address_leads_witness :
  parse_line sample_line = Some sample_record
  /\ exists ip rest,
       dict_get sample_record "ip" = Some ip
       /\ strip sample_line = ip ++ String " " rest
       /\ run_of (digit_or ".") ip.
Proof.
  assert (H : parse_line sample_line = Some sample_record)
    by (vm_compute; reflexivity).
  split; [exact H|]. exact (address_leads sample_line sample_record H).
Defined.

Lemma user_is_not_dash_witness :
  parse_line user_line = Some user_record
  /\ dict_get user_record "user" = Some "frank"
  /\ "frank" <> "-"
  /\ re_match APACHE_COMBINED (strip user_line) = None.
Proof.
  assert (H : parse_line user_line = Some user_record)
    by (vm_compute; reflexivity).
  assert (Hu : dict_get user_record "user" = Some "frank") by reflexivity.
  split; [exact H|]. split; [exact Hu|].
  exact (user_is_not_dash user_line user_record "frank" H Hu).
Defined.

Lemma bytes_is_greedy_witness :
  In APACHE_COMBINED patterns
  /\ re_match APACHE_COMBINED trailing_line
     = Some (sample_record, " " ++ quoted "-" ++ " " ++ quoted "curl/8.0")
  /\ exists pre bytes,
       trailing_line
       = pre ++ bytes ++ " " ++ quoted "-" ++ " " ++ quoted "curl/8.0"
       /\ dict_get sample_record "bytes" = Some bytes
       /\ digit_or "-" " " = false.
Proof.
  assert (Hp : In APACHE_COMBINED patterns) by (left; reflexivity).
  assert (Hm : re_match APACHE_COMBINED trailing_line
               = Some (sample_record,
                       " " ++ quoted "-" ++ " " ++ quoted "curl/8.0"))
    by (vm_compute; reflexivity).
  split; [exact Hp|]. split; [exact Hm|].
  exact (bytes_is_greedy APACHE_COMBINED trailing_line _ _ Hp Hm).
Defined.

Lemma few_requests_no_suspects_witness :
  total_requests (ingest_all fresh_state [(1, sample_line)])
  < error_threshold (ingest_all fresh_state [(1, sample_line)])
  /\ suspicious_ips_Q (ingest_all fresh_state [(1, sample_line)]) = [].
Proof.
  assert (H : total_requests (ingest_all fresh_state [(1, sample_line)])
              < error_threshold (ingest_all fresh_state [(1, sample_line)]))
    by (vm_compute; reflexivity).
  split; [exact H|].
  exact (few_requests_no_suspects Q inject_Z Q_div Q_ge 10 (1 # 2)%Q
           [(1, sample_line)] H).
Defined.

Lemma named_status_is_summarised_witness :
  _get_status_name "404" <> ""
  /\ String.length "404" = 3%nat
  /\ all_chars is_digit "404" = true
  /\ (startswith "404" "2" || startswith "404" "3"
      || startswith "404" "4" || startswith "404" "5") = true.
Proof.
  assert (H : _get_status_name "404" <> "") by (vm_compute; discriminate).
  split; [exact H|]. exact (named_status_is_summarised "404" H).
Defined.
